(** * iCloud photo downloader: ingestion, deduplication and organisation

    A shallow embedding of [temp_solution.py] (the pipeline the
    specification describes) and of the two functions of
    [icloud_photo_downloader/core/downloader.py] that the specification also
    refers to, with the properties of the specification stated and settled
    against them.

    Conventions of the embedding.
    - Python [str] is [string]; file contents are [list byte].
    - The file system is explicit state: regular files, directories and the
      private temporary files of [tempfile.NamedTemporaryFile].
    - Calls that leave the process (the remote fetch, the system calls that
      can be refused) take their outcome from an [io] record that comes with
      every asset: the code is deterministic once those outcomes are fixed.
    - [except Exception] blocks are the [None] branches of the functions
      below. *)

From Stdlib Require Import Strings.String Strings.Ascii Strings.Byte List ZArith Lia.
From Stdlib Require Import Decimal DecimalNat DecimalString.
From stdpp Require Import gmap strings list.

Local Open Scope string_scope.
Set Warnings "-register-all".

(** ** Python strings and [os.path] (POSIX flavour) *)

Module Py.

(** [s.lower()] on the ASCII range. *)
Definition lower_ascii (c : ascii) : ascii :=
  let n := nat_of_ascii c in
  if (65 <=? n)%nat && (n <=? 90)%nat then ascii_of_nat (n + 32) else c.

Fixpoint lower (s : string) : string :=
  match s with
  | EmptyString => EmptyString
  | String c s' => String (lower_ascii c) (lower s')
  end.

(** [s.rfind(c)], counted from [i]; [None] is Python's [-1]. *)
Fixpoint rfind_from (c : ascii) (s : string) (i : nat) : option nat :=
  match s with
  | EmptyString => None
  | String a s' =>
      match rfind_from c s' (S i) with
      | Some j => Some j
      | None => if Ascii.eqb a c then Some i else None
      end
  end.

Definition rfind (c : ascii) (s : string) : Z :=
  match rfind_from c s 0 with
  | Some i => Z.of_nat i
  | None => (-1)%Z
  end.

(** [s[:n]] and [s[n:]]. *)
Fixpoint take (n : nat) (s : string) : string :=
  match n, s with
  | S n', String c s' => String c (take n' s')
  | _, _ => EmptyString
  end.

Fixpoint drop (n : nat) (s : string) : string :=
  match n, s with
  | S n', String _ s' => drop n' s'
  | _, _ => s
  end.

Fixpoint all_char (c : ascii) (s : string) : bool :=
  match s with
  | EmptyString => true
  | String a s' => Ascii.eqb a c && all_char c s'
  end.

Fixpoint startswith (pre s : string) : bool :=
  match pre, s with
  | EmptyString, _ => true
  | String a pre', String b s' => Ascii.eqb a b && startswith pre' s'
  | String _ _, EmptyString => false
  end.

Definition endswith (suf s : string) : bool :=
  String.eqb (drop (String.length s - String.length suf) s) suf
  && (String.length suf <=? String.length s)%nat.

(** [s.rstrip('/')]. *)
Fixpoint rstrip_slash (s : string) : string :=
  match s with
  | EmptyString => EmptyString
  | String c s' =>
      match rstrip_slash s' with
      | EmptyString => if Ascii.eqb c "/" then EmptyString else String c EmptyString
      | r => String c r
      end
  end.

(** [os.path.splitext]: the extension starts at the last dot of the last
    path component, unless that component has only leading dots before
    it. *)
Definition splitext (p : string) : string * string :=
  let sepIndex := rfind "/" p in
  let dotIndex := rfind "." p in
  if (sepIndex <? dotIndex)%Z then
    let filenameIndex := Z.to_nat (sepIndex + 1) in
    let d := Z.to_nat dotIndex in
    if all_char "." (take (d - filenameIndex) (drop filenameIndex p))
    then (p, "")
    else (take d p, drop d p)
  else (p, "").

(** [os.path.join(a, b)]. *)
Definition join (a b : string) : string :=
  if startswith "/" b then b
  else if String.eqb a "" || endswith "/" a then a ++ b
  else a ++ "/" ++ b.

(** [os.path.join(a, b, c)]. *)
Definition join3 (a b c : string) : string := join (join a b) c.

(** [os.path.dirname]. *)
Definition dirname (p : string) : string :=
  let i := Z.to_nat (rfind "/" p + 1) in
  let head := take i p in
  if negb (String.eqb head "") && negb (all_char "/" head)
  then rstrip_slash head else head.

(** [os.path.basename]. *)
Definition basename (p : string) : string :=
  drop (Z.to_nat (rfind "/" p + 1)) p.

(** [str(n)] for a natural number. *)
Definition str_nat (n : nat) : string :=
  NilEmpty.string_of_uint (Nat.to_uint n).

Fixpoint zeros (n : nat) : string :=
  match n with
  | O => ""
  | S n' => String "0" (zeros n')
  end.

(** [f"{n:0wd}"]: decimal, padded with zeros on the left up to width
    [w]. *)
Definition zpad (w n : nat) : string :=
  let s := str_nat n in zeros (w - String.length s) ++ s.

(** Reading a decimal numeral back; it is only used in proofs. *)
Definition read_nat (s : string) : nat :=
  match NilEmpty.uint_of_string s with
  | Some d => Nat.of_uint d
  | None => 0
  end.

End Py.

(** ** The data model *)

(** [datetime.datetime], and [strftime("%Y%m%d_%H%M%S")] for years of four
    digits. *)
Module Datetime.
Record t := mk { year : nat; month : nat; day : nat;
                 hour : nat; minute : nat; second : nat }.

Definition strftime (d : t) : string :=
  Py.zpad 4 (year d) ++ Py.zpad 2 (month d) ++ Py.zpad 2 (day d) ++ "_"
  ++ Py.zpad 2 (hour d) ++ Py.zpad 2 (minute d) ++ Py.zpad 2 (second d).
End Datetime.

(** A Python [float] that holds a coordinate: a sign and the exact value
    [fnum / fden] of the double (the sign is kept apart because [-0.0] prints
    with it). *)
Record pyfloat := mk_float { fneg : bool; fnum : N; fden : positive }.

Definition float_is_zero (x : pyfloat) : bool := (fnum x =? 0)%N.

(** [round(x, 2)]: the nearest multiple of 1/100 of the exact value, a tie
    going to the even one. *)
Definition round2 (x : pyfloat) : pyfloat :=
  let n := (100 * fnum x)%N in
  let d := Npos (fden x) in
  let q := (n / d)%N in
  let r := (n mod d)%N in
  let h := if (2 * r <? d)%N then q
           else if (d <? 2 * r)%N then (q + 1)%N
           else if N.even q then q else (q + 1)%N in
  mk_float (fneg x) h 100.

(** [repr] of a float that is a multiple of 1/100 and below 10^16 in
    magnitude, which is what [round2] returns on a coordinate: the shortest
    numeral, with at least one digit after the point. *)
Definition repr_float (x : pyfloat) : string :=
  let h := N.to_nat (100 * fnum x / Npos (fden x)) in
  let frac := h mod 100 in
  (if fneg x then "-" else "") ++ Py.str_nat (h / 100) ++ "."
  ++ (if (frac mod 10 =? 0)%nat then Py.str_nat (frac / 10) else Py.zpad 2 frac).

(** The values the location attribute is probed for. *)
Inductive pyval :=
| VNone
| VFloat (x : pyfloat)
| VDict (d : list (string * pyval))
| VSeq (l : list pyval).

(** Python truthiness. *)
Definition truthy (v : pyval) : bool :=
  match v with
  | VNone => false
  | VFloat x => negb (float_is_zero x)
  | VDict d => match d with [] => false | _ => true end
  | VSeq l => match l with [] => false | _ => true end
  end.

Definition truthy_str (s : string) : bool := negb (String.eqb s "").

Definition truthy_opt_str (o : option string) : bool :=
  match o with Some s => truthy_str s | None => false end.

Definition is_not_none (v : pyval) : bool :=
  match v with VNone => false | _ => true end.

(** [d.get(k)] and [k in d]. *)
Fixpoint dict_get (k : string) (d : list (string * pyval)) : pyval :=
  match d with
  | [] => VNone
  | (k', v) :: d' => if String.eqb k' k then v else dict_get k d'
  end.

Fixpoint dict_has (k : string) (d : list (string * pyval)) : bool :=
  match d with
  | [] => false
  | (k', _) :: d' => String.eqb k' k || dict_has k d'
  end.

(** [a or b]. *)
Definition py_or (a b : pyval) : pyval := if truthy a then a else b.

(** [float(v)]; [None] when it raises. *)
Definition py_float (v : pyval) : option pyfloat :=
  match v with VFloat x => Some x | _ => None end.

(** The remote asset, as far as the code reads it. [id = None] and
    [created = None] stand for an attribute that is absent; [versions] lists
    each version name with its ['type'] entry when it has one;
    [location_enc] is [None] without an encoded location field, [Some None]
    when decoding it raises and [Some (Some v)] for the decoded plist. *)
Module Photo.
Record t := mk {
  id : option string;
  filename : string;
  created : option Datetime.t;
  location : pyval;
  location_enc : option (option pyval);
  versions : list (string * option string)
}.
End Photo.

(** The outcomes of the calls that leave the process while one asset is
    handled: [download] and [video] are what [photo.download()] and
    [photo.download(version='video')] deliver ([None]: the call raises), the
    flags tell whether the system accepts the directory creation, the final
    move, the [os.utime] calls and the EXIF rewrite. *)
Record io := mk_io {
  mkdir_ok : bool;
  download : option (list byte);
  move_ok : bool;
  utime_ok : bool;
  exif_ok : bool;
  video : option (list byte);
  video_utime_ok : bool
}.

(** The tags [save_metadata] embeds. *)
Record exif_tags := mk_exif {
  tag_date : option Datetime.t;
  tag_gps : option (pyfloat * pyfloat)
}.

(** A file: its payload, the times set by [os.utime] ([None]: never set by
    the program) and the embedded tags. *)
Record file := mk_file {
  content : list byte;
  mtime : option Datetime.t;
  exif : option exif_tags
}.

(** The file system. [temps] is the name space of
    [tempfile.NamedTemporaryFile], disjoint from the output tree, with
    [next_tmp] the next fresh name. [moved] is a history variable: the
    destinations of the [shutil.move] calls that succeeded, oldest first. *)
Record filesystem := mk_fs {
  files : gmap string file;
  dirs : gset string;
  temps : gmap nat (list byte);
  next_tmp : nat;
  moved : list string
}.

Definition empty_fs : filesystem := mk_fs ∅ ∅ ∅ 0 [].

(** [os.path.exists]. *)
Definition path_exists (fsys : filesystem) (p : string) : bool :=
  bool_decide (p ∈ dom (files fsys)) || bool_decide (p ∈ dirs fsys).

(** The proper ancestors of a path, nearest first. *)
Fixpoint parents (fuel : nat) (p : string) : list string :=
  match fuel with
  | O => []
  | S fuel' =>
      let d := Py.dirname p in
      if String.eqb d p || String.eqb d "" then [] else d :: parents fuel' d
  end.

(** [os.makedirs(p, exist_ok=True)]; [None] when it raises: the system
    refuses, or a regular file is in the way. *)
Definition makedirs (ok : bool) (p : string) (fsys : filesystem) : option filesystem :=
  let ds := p :: parents (String.length p) p in
  if ok && forallb (fun d => negb (bool_decide (d ∈ dom (files fsys)))) ds
  then Some (mk_fs (files fsys) (list_to_set ds ∪ dirs fsys) (temps fsys)
                   (next_tmp fsys) (moved fsys))
  else None.

(** ** [get_file_type_folder] *)

Definition get_file_type_folder (filename : string) : string :=
  let ext := Py.lower (snd (Py.splitext filename)) in
  if String.eqb ext ".heic" then "HEIC"
  else if String.eqb ext ".jpg" then "JPEG"
  else if String.eqb ext ".jpeg" then "JPEG"
  else if String.eqb ext ".png" then "PNG"
  else if String.eqb ext ".mov" then "Videos"
  else if String.eqb ext ".mp4" then "Videos"
  else if String.eqb ext ".m4v" then "Videos"
  else if String.eqb ext ".gif" then "GIF"
  else if String.eqb ext ".raw" then "RAW"
  else if String.eqb ext ".dng" then "RAW"
  else if String.eqb ext ".cr2" then "RAW"
  else if String.eqb ext ".arw" then "RAW"
  else "Others".

(** ** [get_location_name] *)

(** [f"Lat{lat_rounded}_Lon{lon_rounded}"]; [None] when [float()] raises. *)
Definition lat_lon_name (lat lon : pyval) : option string :=
  match py_float lat, py_float lon with
  | Some x, Some y =>
      Some ("Lat" ++ repr_float (round2 x) ++ "_Lon" ++ repr_float (round2 y))
  | _, _ => None
  end.

(** One [if lat is not None and lon is not None: ... return] block: [None]
    when the test fails and control falls through, [Some None] when the
    block raises, [Some (Some s)] when it returns [s]. *)
Definition try_coords (lat lon : pyval) : option (option string) :=
  if is_not_none lat && is_not_none lon then Some (lat_lon_name lat lon) else None.

(** [loc.get('latitude') or loc.get('lat')], and the same for the
    longitude. *)
Definition dict_coords (d : list (string * pyval)) : pyval * pyval :=
  (py_or (dict_get "latitude" d) (dict_get "lat" d),
   py_or (dict_get "longitude" d) (dict_get "lon" d)).

(** The [if loc:] block on the standard attribute. *)
Definition standard_location (loc : pyval) : option (option string) :=
  if truthy loc then
    let as_dict :=
      match loc with
      | VDict d => let '(lat, lon) := dict_coords d in try_coords lat lon
      | _ => None
      end in
    match as_dict with
    | Some r => Some r
    | None =>
        let as_seq :=
          match loc with
          | VSeq [lat; lon] => try_coords lat lon
          | _ => None
          end in
        match as_seq with
        | Some r => Some r
        | None =>
            match loc with
            | VDict d =>
                if dict_has "location" d then
                  match dict_get "location" d with
                  | VDict nested =>
                      let '(lat, lon) := dict_coords nested in try_coords lat lon
                  | _ => None
                  end
                else None
            | _ => None
            end
        end
    end
  else None.

(** The block on the encoded location; faults inside it are caught by its
    own [except] and fall through. *)
Definition encoded_location (enc : option (option pyval)) : option string :=
  match enc with
  | Some (Some (VDict d)) =>
      match try_coords (dict_get "lat" d) (dict_get "lon" d) with
      | Some (Some s) => Some s
      | _ => None
      end
  | _ => None
  end.

Definition get_location_name (photo : Photo.t) : string :=
  match standard_location (Photo.location photo) with
  | Some (Some s) => s
  | Some None => "Unknown_Location"
  | None =>
      match encoded_location (Photo.location_enc photo) with
      | Some s => s
      | None => "Unknown_Location"
      end
  end.

(** The year as the code carries it: [creation_date.year] or the string
    ["unknown_year"]. *)
Inductive pyyear :=
| YInt (y : nat)
| YStr (s : string).

Definition str_year (y : pyyear) : string :=
  match y with YInt n => Py.str_nat n | YStr s => s end.

(** ** [create_location_year_directory], [create_type_year_directory]

    Both return the directory ([None] when a [makedirs] raises) and the file
    system with what was created until then. *)

Definition create_location_year_directory (ok : bool) (base_dir location_name : string)
    (year : pyyear) (fsys : filesystem) : option string * filesystem :=
  let location_dir := Py.join base_dir location_name in
  match makedirs ok location_dir fsys with
  | None => (None, fsys)
  | Some fs1 =>
      let year_dir := Py.join location_dir (str_year year) in
      match makedirs ok year_dir fs1 with
      | None => (None, fs1)
      | Some fs2 => (Some year_dir, fs2)
      end
  end.

Definition create_type_year_directory (ok : bool) (base_dir file_type : string)
    (year : pyyear) (fsys : filesystem) : option string * filesystem :=
  let type_dir := Py.join base_dir file_type in
  match makedirs ok type_dir fsys with
  | None => (None, fsys)
  | Some fs1 =>
      let year_dir := Py.join type_dir (str_year year) in
      match makedirs ok year_dir fs1 with
      | None => (None, fs1)
      | Some fs2 => (Some year_dir, fs2)
      end
  end.

(** ** Python dictionaries that keep their insertion order *)

Fixpoint alookup {K V} `{EqDecision K} (k : K) (d : list (K * V)) : option V :=
  match d with
  | [] => None
  | (k', v) :: d' => if decide (k' = k) then Some v else alookup k d'
  end.

(** [d[k] = v]: in place when [k] is a key already, at the end otherwise. *)
Fixpoint aset {K V} `{EqDecision K} (k : K) (v : V) (d : list (K * V)) : list (K * V) :=
  match d with
  | [] => [(k, v)]
  | (k', v') :: d' => if decide (k' = k) then (k, v) :: d' else (k', v') :: aset k v d'
  end.

Definition ahas {K V} `{EqDecision K} (k : K) (d : list (K * V)) : bool :=
  match alookup k d with Some _ => true | None => false end.

(** ** Stats *)

Global Instance pyyear_eq_dec : EqDecision pyyear.
Proof. solve_decision. Defined.

(** What [stats[section][name]] holds: the count of an album, or the
    per-year counts of a file type. *)
Inductive entry :=
| Count (n : nat)
| Years (ys : list (pyyear * nat)).

Definition stats_t := list (string * list (string * entry)).

(** The three statements on [stats["Shared_Albums"][album_name]]; [None]
    is the [TypeError] of [+= 1] on a value that is not a number. *)
Definition update_stats_album (album_name : string) (stats : stats_t) : option stats_t :=
  let stats1 := if ahas "Shared_Albums" stats then stats else aset "Shared_Albums" [] stats in
  let sec := default [] (alookup "Shared_Albums" stats1) in
  let sec1 := if ahas album_name sec then sec else aset album_name (Count 0) sec in
  match alookup album_name sec1 with
  | Some (Count n) =>
      Some (aset "Shared_Albums" (aset album_name (Count (n + 1)) sec1) stats1)
  | _ => None
  end.

(** The four statements on [stats[photo_type][file_type][year]]; [None] is
    the [TypeError] of [year not in] a number. *)
Definition update_stats_library (photo_type file_type : string) (year : pyyear)
    (stats : stats_t) : option stats_t :=
  let stats1 := if ahas photo_type stats then stats else aset photo_type [] stats in
  let sec := default [] (alookup photo_type stats1) in
  let sec1 := if ahas file_type sec then sec else aset file_type (Years []) sec in
  match alookup file_type sec1 with
  | Some (Years ys) =>
      let ys1 := if ahas year ys then ys else aset year 0 ys in
      let n := default 0 (alookup year ys1) in
      Some (aset photo_type (aset file_type (Years (aset year (n + 1) ys1)) sec1) stats1)
  | _ => None
  end.

Definition entry_total (e : entry) : nat :=
  match e with
  | Count n => n
  | Years ys => list_sum (map snd ys)
  end.

Definition section_total (sec : list (string * entry)) : nat :=
  list_sum (map (fun kv => entry_total (snd kv)) sec).

(** The sum over all leaves of the Stats structure. *)
Definition sum_leaves (stats : stats_t) : nat :=
  list_sum (map (fun kv => section_total (snd kv)) stats).

(** ** Side effects on a committed file *)

Definition set_mtime (d : Datetime.t) (f : file) : file :=
  mk_file (content f) (Some d) (exif f).

Definition set_exif (t : exif_tags) (f : file) : file :=
  mk_file (content f) (mtime f) (Some t).

Definition with_files (fsys : filesystem) (m : gmap string file) : filesystem :=
  mk_fs m (dirs fsys) (temps fsys) (next_tmp fsys) (moved fsys).

(** [preserve_original_timestamps]: a refused [os.utime] is caught inside. *)
Definition preserve_original_timestamps (ok : bool) (filepath : string)
    (created_date : option Datetime.t) (fsys : filesystem) : filesystem :=
  match created_date with
  | Some d => if ok then with_files fsys (alter (set_mtime d) filepath (files fsys)) else fsys
  | None => fsys
  end.

(** The GPS part of [save_metadata]: [None] when it raises (the location is
    not a container, or a coordinate is not a number), [Some None] when no
    GPS tag is written. *)
Definition gps_tags (loc : pyval) : option (option (pyfloat * pyfloat)) :=
  if truthy loc then
    match loc with
    | VDict d =>
        if dict_has "latitude" d && dict_has "longitude" d then
          match py_float (dict_get "latitude" d), py_float (dict_get "longitude" d) with
          | Some lat, Some lon => Some (Some (lat, lon))
          | _, _ => None
          end
        else Some None
    | VSeq _ => Some None
    | _ => None
    end
  else Some None.

(** [save_metadata]: only for [.jpg] and [.jpeg] paths, and every fault is
    caught inside. *)
Definition save_metadata (photo : Photo.t) (e : io) (filepath : string)
    (fsys : filesystem) : filesystem :=
  let lowered := Py.lower filepath in
  if Py.endswith ".jpg" lowered || Py.endswith ".jpeg" lowered then
    match gps_tags (Photo.location photo) with
    | Some gps =>
        if exif_ok e
        then with_files fsys
               (alter (set_exif (mk_exif (Photo.created photo) gps)) filepath (files fsys))
        else fsys
    | None => fsys
    end
  else fsys.

(** ** [handle_live_photo] *)

(** The loop over [photo.versions.values()]. *)
Definition has_video_version (versions : list (string * option string)) : bool :=
  existsb (fun v => match snd v with Some t => String.eqb t "video" | None => false end)
          versions.

Definition video_path_of (base_path filename : string) : string :=
  let video_filename := fst (Py.splitext filename) ++ ".mov" in
  Py.join3 (Py.dirname base_path) "Videos" video_filename.

(** The result is the flag the function returns and the file system it
    leaves; the [except] clause keeps what was done before the fault. *)
Definition handle_live_photo (photo : Photo.t) (e : io) (base_path filename : string)
    (fsys : filesystem) : bool * filesystem :=
  if has_video_version (Photo.versions photo) then
    let video_path := video_path_of base_path filename in
    match makedirs (mkdir_ok e) (Py.dirname video_path) fsys with
    | None => (false, fsys)
    | Some fs1 =>
        match video e with
        | None => (false, fs1)
        | Some bytes =>
            let fs2 := with_files fs1 (<[video_path := mk_file bytes None None]> (files fs1)) in
            (true, preserve_original_timestamps (video_utime_ok e) video_path
                     (Photo.created photo) fs2)
        end
    end
  else (false, fsys).

(** ** [process_photo] *)

(** [(photo_id, date_str, photo_hash, photo_size)]. *)
Definition dedup_key : Type := option string * string * string * nat.

(** The state [process_photo] works on: the file system, the [stats]
    dictionary and the [unique_photo_keys] set of the caller. *)
Record store := mk_store {
  fsys_of : filesystem;
  stats_of : stats_t;
  keys_of : gset dedup_key
}.

(** The value [process_photo] returns, and the one of its two
    [return False, False, None]. *)
Definition result : Type := bool * bool * option string.

Definition failed : result := (false, false, None).

(** The [if hasattr(photo, 'created')] block of [process_photo]: [date_str]
    and [year]. *)
Definition date_str_of (photo : Photo.t) : string :=
  match Photo.created photo with
  | Some creation_date => Datetime.strftime creation_date
  | None => "unknown_date"
  end.

Definition year_of (photo : Photo.t) : pyyear :=
  match Photo.created photo with
  | Some creation_date => YInt (Datetime.year creation_date)
  | None => YStr "unknown_year"
  end.

Section Pipeline.

(** The SHA-256 digest in hexadecimal; the pipeline only compares its
    results. *)
Variable sha256 : list byte -> string.

(** [compute_sha256] and [os.path.getsize] on a temporary file. *)
Definition compute_sha256 (fsys : filesystem) (tmp : nat) : string :=
  sha256 (default [] (temps fsys !! tmp)).

Definition getsize_tmp (fsys : filesystem) (tmp : nat) : nat :=
  length (default [] (temps fsys !! tmp)).

(** The [with tempfile.NamedTemporaryFile(delete=False)] block: the file
    is created first, so a fetch that raises leaves it empty behind. *)
Definition stage (e : io) (fsys : filesystem) : option nat * filesystem :=
  let tmp := next_tmp fsys in
  match download e with
  | Some bytes =>
      (Some tmp, mk_fs (files fsys) (dirs fsys) (<[tmp := bytes]> (temps fsys))
                       (S tmp) (moved fsys))
  | None =>
      (None, mk_fs (files fsys) (dirs fsys) (<[tmp := []]> (temps fsys))
                   (S tmp) (moved fsys))
  end.

(** [os.remove] on a temporary file. *)
Definition remove_tmp (tmp : nat) (fsys : filesystem) : filesystem :=
  mk_fs (files fsys) (dirs fsys) (delete tmp (temps fsys)) (next_tmp fsys) (moved fsys).

(** The name tried at round [counter] of the conflict loop. *)
Definition numbered (base_filename : string) (counter : nat) : string :=
  let '(name, ext) := Py.splitext base_filename in
  name ++ "_" ++ Py.zpad 3 counter ++ ext.

(** [while os.path.exists(filepath): ...]. The result is the final
    [(filename, filepath)]; [fuel] bounds the number of rounds, and
    [resolve_conflict_total] below shows the bound [process_photo] passes is
    never reached. *)
Fixpoint resolve_conflict (fuel : nat) (fsys : filesystem) (photo_dir base_filename : string)
    (counter : nat) (filename filepath : string) : option (string * string) :=
  if path_exists fsys filepath then
    match fuel with
    | O => None
    | S fuel' =>
        let filename' := numbered base_filename counter in
        resolve_conflict fuel' fsys photo_dir base_filename (S counter)
                         filename' (Py.join photo_dir filename')
    end
  else Some (filename, filepath).

Definition enough_fuel (fsys : filesystem) : nat :=
  S (size (dom (files fsys)) + size (dirs fsys)).

(** [shutil.move(tmp_file_path, filepath)]; [None] when it raises. *)
Definition shutil_move (ok : bool) (tmp : nat) (filepath : string)
    (fsys : filesystem) : option filesystem :=
  if ok then
    match temps fsys !! tmp with
    | Some bytes =>
        Some (mk_fs (<[filepath := mk_file bytes None None]> (files fsys)) (dirs fsys)
                    (delete tmp (temps fsys)) (next_tmp fsys) (moved fsys ++ [filepath]))
    | None => None
    end
  else None.

(** The choice of [photo_dir], with the directories it creates; [None]
    when a [makedirs] raises. *)
Definition plan_directory (photo : Photo.t) (e : io) (base_dir photo_type : string)
    (album_name : option string) (use_location_organization : bool)
    (file_type : string) (year : pyyear) (fsys : filesystem)
    : option string * filesystem :=
  if truthy_opt_str album_name then
    let photo_dir := Py.join3 base_dir "Shared_Albums" (default "" album_name) in
    match makedirs (mkdir_ok e) photo_dir fsys with
    | Some fs1 => (Some photo_dir, fs1)
    | None => (None, fsys)
    end
  else if use_location_organization then
    create_location_year_directory (mkdir_ok e) (Py.join base_dir photo_type)
                                   (get_location_name photo) year fsys
  else
    create_type_year_directory (mkdir_ok e) (Py.join base_dir photo_type)
                               file_type year fsys.

(** The statements under [# Update stats only for successful downloads]. *)
Definition update_stats (photo_type : string) (album_name : option string)
    (file_type : string) (year : pyyear) (stats : stats_t) : option stats_t :=
  if truthy_opt_str album_name
  then update_stats_album (default "" album_name) stats
  else update_stats_library photo_type file_type year stats.

(** From the move to the end of the function. *)
Definition commit (photo : Photo.t) (e : io) (photo_type : string)
    (album_name : option string) (file_type : string) (year : pyyear)
    (photo_dir base_filename : string) (tmp : nat) (st : store) : result * store :=
  let fs0 := fsys_of st in
  match resolve_conflict (enough_fuel fs0) fs0 photo_dir base_filename 1
                         base_filename (Py.join photo_dir base_filename) with
  | None => (failed, st)
  | Some (filename, filepath) =>
      match shutil_move (move_ok e) tmp filepath fs0 with
      | None => (failed, st)
      | Some fs1 =>
          let fs2 := preserve_original_timestamps (utime_ok e) filepath
                       (Photo.created photo) fs1 in
          let fs3 := save_metadata photo e filepath fs2 in
          let '(is_live_photo, fs4) := handle_live_photo photo e filepath filename fs3 in
          match update_stats photo_type album_name file_type year (stats_of st) with
          | None => (failed, mk_store fs4 (stats_of st) (keys_of st))
          | Some stats' =>
              ((true, is_live_photo, Some filepath), mk_store fs4 stats' (keys_of st))
          end
      end
  end.

Definition process_photo (photo : Photo.t) (e : io) (base_dir : string)
    (photo_type : string) (album_name : option string)
    (use_location_organization : bool) (st : store) : result * store :=
  let year := year_of photo in
  let date_str := date_str_of photo in
  let photo_id := Photo.id photo in
  let original_filename := Photo.filename photo in
  let file_type := get_file_type_folder original_filename in
  match plan_directory photo e base_dir photo_type album_name
                       use_location_organization file_type year (fsys_of st) with
  | (None, fs1) => (failed, mk_store fs1 (stats_of st) (keys_of st))
  | (Some photo_dir, fs1) =>
      let base_filename := date_str ++ "_" ++ original_filename in
      match stage e fs1 with
      | (None, fs2) => (failed, mk_store fs2 (stats_of st) (keys_of st))
      | (Some tmp, fs2) =>
          let photo_hash := compute_sha256 fs2 tmp in
          let photo_size := getsize_tmp fs2 tmp in
          let unique_key : dedup_key := (photo_id, date_str, photo_hash, photo_size) in
          if bool_decide (unique_key ∈ keys_of st) then
            (failed, mk_store (remove_tmp tmp fs2) (stats_of st) (keys_of st))
          else
            commit photo e photo_type album_name file_type year photo_dir base_filename
                   tmp (mk_store fs2 (stats_of st) ({[unique_key]} ∪ keys_of st))
      end
  end.

(** ** [download_all_photos] *)

(** [get_unique_photo_id]. *)
Definition get_unique_photo_id (photo : Photo.t) : string :=
  if truthy_opt_str (Photo.id photo) then default "" (Photo.id photo)
  else
    let date_str :=
      match Photo.created photo with
      | Some created => Datetime.strftime created
      | None => "unknown_date"
      end in
    date_str ++ "_" ++ Photo.filename photo.

(** The text of a log entry, with the numbers and names it is formatted
    from. *)
Inductive message :=
| MsgText (s : string)
| MsgFound (section : string) (total : nat)
| MsgSkipDuplicate (section uid filename : string)
| MsgProcessing (section : string) (i total : nat) (filename uid : string)
                (created : option Datetime.t)
| MsgDownloaded (filename uid filepath : string) (file_size : nat)
| MsgLiveVideo
| MsgFailed (filename : string)
| MsgProgress (section : string) (i total downloaded errors : nat)
| MsgSectionError (section : string)
| MsgSectionComplete (section : string) (downloaded errors : nat)
| MsgAlbum (album_idx albums : nat) (album_name : string) (total : nat)
| MsgAlbumComplete (album_name : string) (total : nat)
| MsgSummary (what : string) (n : nat).

(** One line of [download_progress_detailed.txt], without its wall-clock
    time. The lines are kept in the [log] of the run, apart from the [files]
    of the file system. *)
Record log_line := mk_line {
  seqno : nat;
  level : string;
  text : message
}.

(** The local variables of [download_all_photos] together with the state
    it shares with [process_photo]. *)
Record run_state := mk_run {
  run_store : store;
  processed_ids : gset string;
  total_downloaded : nat;
  errors : nat;
  skipped : nat;
  entry_counter : nat;
  log : list log_line
}.

(** [log_entry(message, level)]. *)
Definition log_entry (m : message) (lvl : string) (r : run_state) : run_state :=
  mk_run (run_store r) (processed_ids r) (total_downloaded r) (errors r) (skipped r)
         (S (entry_counter r)) (log r ++ [mk_line (entry_counter r) lvl m]).

Definition info (m : message) : run_state -> run_state := log_entry m "INFO".

(** [os.path.getsize(filepath) if os.path.exists(filepath) else 0]. *)
Definition getsize (fsys : filesystem) (filepath : string) : nat :=
  match files fsys !! filepath with
  | Some f => length (content f)
  | None => 0
  end.

(** An enumerated asset: the remote object and what its calls will
    answer. *)
Definition asset : Type := Photo.t * io.

(** The body of the three [for i, photo in enumerate(photos, 1)] loops;
    they differ in the section name of the messages, in the arguments
    passed to [process_photo] and in the period of the progress line. The
    [except] clause around the body is never entered: every fault of the
    model is caught inside [process_photo]. *)
Definition process_asset (base_dir section photo_type : string)
    (album_name : option string) (use_location_organization : bool)
    (period total i : nat) (a : asset) (r : run_state) : run_state :=
  let '(photo, e) := a in
  let uid := get_unique_photo_id photo in
  if bool_decide (uid ∈ processed_ids r) then
    info (MsgSkipDuplicate section uid (Photo.filename photo))
         (mk_run (run_store r) (processed_ids r) (total_downloaded r) (errors r)
                 (S (skipped r)) (entry_counter r) (log r))
  else
    let filename := Photo.filename photo in
    let r1 := log_entry (MsgProcessing section i total filename uid (Photo.created photo))
                        "PROCESS" r in
    let '((success, is_live, filepath), st') :=
      process_photo photo e base_dir photo_type album_name
                    use_location_organization (run_store r1) in
    let r2 :=
      if success then
        let r' := mk_run st' ({[uid]} ∪ processed_ids r1) (S (total_downloaded r1))
                         (errors r1) (skipped r1) (entry_counter r1) (log r1) in
        let path := default "" filepath in
        let r'' := log_entry (MsgDownloaded filename uid path (getsize (fsys_of st') path))
                             "SUCCESS" r' in
        if is_live then info MsgLiveVideo r'' else r''
      else
        log_entry (MsgFailed filename) "ERROR"
                  (mk_run st' (processed_ids r1) (total_downloaded r1) (S (errors r1))
                          (skipped r1) (entry_counter r1) (log r1)) in
    if (i mod period =? 0)%nat
    then info (MsgProgress section i total (total_downloaded r2) (errors r2)) r2
    else r2.

(** The [for] loop itself, [i] counting from its first value. *)
Fixpoint process_assets (base_dir section photo_type : string)
    (album_name : option string) (use_location_organization : bool)
    (period total i : nat) (photos : list asset) (r : run_state) : run_state :=
  match photos with
  | [] => r
  | a :: rest =>
      process_assets base_dir section photo_type album_name use_location_organization
                     period total (S i) rest
                     (process_asset base_dir section photo_type album_name
                                    use_location_organization period total i a r)
  end.

(** What the remote library answers: [None] is an access that raises. *)
Record album := mk_album {
  name : string;
  photos : option (list asset)
}.

Record api := mk_api {
  photos_all : option (list asset);
  photos_shared_all : option (list asset);
  photos_shared_albums : option (list album)
}.

Record download_options := mk_options {
  personal : bool;
  shared : bool;
  albums : bool
}.

Definition banner60 : message := MsgText "============================================================".

Definition personal_section (a : api) (base_dir : string) (use_loc : bool)
    (r : run_state) : run_state :=
  let r := info banner60 r in
  let r := info (MsgText "Starting Personal Library Download") r in
  let r := info banner60 r in
  let r :=
    match photos_all a with
    | Some photos =>
        let total := length photos in
        let r := info (MsgFound "Personal" total) r in
        let r := info (MsgText "Progress format: [Current/Total] [Status] [Filename] -> [Filepath]") r in
        let r := info (MsgText "Directory layout: Personal/<TYPE>/<YEAR>/filename") r in
        process_assets base_dir "Personal" "Personal" None use_loc 100 total 1 photos r
    | None => log_entry (MsgSectionError "Personal") "ERROR" r
    end in
  let r := info (MsgSectionComplete "Personal" (total_downloaded r) (errors r)) r in
  info banner60 r.

Definition shared_section (a : api) (base_dir : string) (use_loc : bool)
    (r : run_state) : run_state :=
  let r := info banner60 r in
  let r := info (MsgText "Starting Photos Shared With You Download") r in
  let r := info banner60 r in
  let r :=
    match photos_shared_all a with
    | Some [] => info (MsgText "No shared photos found") r
    | Some photos =>
        let total := length photos in
        let r := info (MsgFound "Shared_With_Me" total) r in
        let r := info (MsgText "Directory layout: Shared_With_Me/<TYPE>/<YEAR>/filename") r in
        process_assets base_dir "Shared_With_Me" "Shared_With_Me" None use_loc 50 total 1
                       photos r
    | None => log_entry (MsgSectionError "Shared_With_Me") "ERROR" r
    end in
  let r := info (MsgSectionComplete "Shared_With_Me" (total_downloaded r) (errors r)) r in
  info banner60 r.

Definition process_album (base_dir : string) (use_loc : bool) (n_albums album_idx : nat)
    (al : album) (r : run_state) : run_state :=
  match photos al with
  | Some ps =>
      let album_name := name al in
      let total := length ps in
      let r := info (MsgAlbum album_idx n_albums album_name total) r in
      let r := process_assets base_dir "Shared_Albums" "Shared_Albums" (Some album_name)
                              use_loc 25 total 1 ps r in
      info (MsgAlbumComplete album_name total) r
  | None => log_entry (MsgSectionError "album") "ERROR" r
  end.

Fixpoint process_albums (base_dir : string) (use_loc : bool) (n_albums album_idx : nat)
    (als : list album) (r : run_state) : run_state :=
  match als with
  | [] => r
  | al :: rest =>
      process_albums base_dir use_loc n_albums (S album_idx) rest
                     (process_album base_dir use_loc n_albums album_idx al r)
  end.

Definition albums_section (a : api) (base_dir : string) (use_loc : bool)
    (r : run_state) : run_state :=
  let r := info banner60 r in
  let r := info (MsgText "Starting Shared Albums Download") r in
  let r := info banner60 r in
  let r :=
    match photos_shared_albums a with
    | Some [] => info (MsgText "No shared albums found") r
    | Some als =>
        let r := info (MsgFound "Shared_Albums" (length als)) r in
        let r := info (MsgText "Directory layout: Shared_Albums/<ALBUM>/<TYPE>/<YEAR>/filename") r in
        process_albums base_dir use_loc (length als) 1 als r
    | None => log_entry (MsgSectionError "Shared_Albums") "ERROR" r
    end in
  let r := info (MsgSectionComplete "Shared_Albums" (total_downloaded r) (errors r)) r in
  info banner60 r.

(** The state before the first section: every index and counter empty, the
    five opening lines logged. *)
Definition start (fsys : filesystem) : run_state :=
  let r := mk_run (mk_store fsys [] ∅) ∅ 0 0 0 1 [] in
  let r := info (MsgText "Starting download session - downloading all photos without duplicate checking") r in
  let r := info (MsgText "All photos will be downloaded regardless of filename similarities") r in
  let r := info (MsgText "Output directory") r in
  let r := info (MsgText "Location organization") r in
  info (MsgText "Download options") r.

(** The three sections in their order. *)
Definition sections (a : api) (opts : download_options) (output_dir : string)
    (use_loc : bool) (r : run_state) : run_state :=
  let r := if personal opts then personal_section a output_dir use_loc r
           else info (MsgText "Skipping Personal Library (not selected)") r in
  let r := if shared opts then shared_section a output_dir use_loc r
           else info (MsgText "Skipping Photos Shared With You (not selected)") r in
  if albums opts then albums_section a output_dir use_loc r
  else info (MsgText "Skipping Shared Albums (not selected)") r.

Definition banner80 : message :=
  MsgText "================================================================================".

(** The lines of the session summary. The dump of [stats] that follows in
    the source only reads the state and logs [INFO] lines; it is left
    out. *)
Definition summary (r : run_state) : run_state :=
  let r := info banner80 r in
  let r := info (MsgText "DOWNLOAD SESSION COMPLETE") r in
  let r := info banner80 r in
  let r := info (MsgSummary "Total files downloaded" (total_downloaded r)) r in
  let r := info (MsgSummary "Errors encountered" (errors r)) r in
  let r := info (MsgSummary "Total unique assets processed" (size (processed_ids r))) r in
  let r := info (MsgSummary "Skipped duplicates across sections" (skipped r)) r in
  info (MsgText "Success rate") r.

(** [download_all_photos]; [None] when the output directory cannot be
    created, the only fault that leaves the function. *)
Definition download_all_photos (a : api) (output_dir : string) (opts : download_options)
    (use_location_organization : bool) (fsys : filesystem) : option run_state :=
  match makedirs true output_dir fsys with
  | None => None
  | Some fs1 =>
      Some (summary (sections a opts output_dir use_location_organization (start fs1)))
  end.

End Pipeline.

(** ** The duplicate of the pipeline in [core/downloader.py]

    [PhotoDownloader._process_single_photo] ends with its own move to the
    final path, and [PhotoDownloader._handle_live_photo] computes its own
    place for the companion video. *)

Module PhotoDownloader.

(** [f"{base}_{i}{ext}"]. *)
Definition numbered (base ext : string) (i : nat) : string :=
  base ++ "_" ++ Py.str_nat i ++ ext.

(** [while os.path.exists(new_filepath): i += 1; ...], entered with
    [new_filepath] the name numbered [i]. *)
Fixpoint find_free (fuel : nat) (fsys : filesystem) (base ext : string) (i : nat)
    : option string :=
  let new_filepath := numbered base ext i in
  if path_exists fsys new_filepath then
    match fuel with
    | O => None
    | S fuel' => find_free fuel' fsys base ext (S i)
    end
  else Some new_filepath.

(** The path the temporary file is renamed to. *)
Definition final_path (fsys : filesystem) (filepath : string) : option string :=
  if negb (path_exists fsys filepath) then Some filepath
  else
    let '(base, ext) := Py.splitext filepath in
    find_free (S (size (dom (files fsys)) + size (dirs fsys))) fsys base ext 1.

(** [os.rename(tmp_file_path, ...)] to that path; [None] when it raises. *)
Definition move_to_final (ok : bool) (tmp : nat) (filepath : string)
    (fsys : filesystem) : option (string * filesystem) :=
  match final_path fsys filepath with
  | Some target =>
      if ok then
        match temps fsys !! tmp with
        | Some bytes =>
            Some (target,
                  mk_fs (<[target := mk_file bytes None None]> (files fsys)) (dirs fsys)
                        (delete tmp (temps fsys)) (next_tmp fsys)
                        (moved fsys ++ [target]))
        | None => None
        end
      else None
  | None => None
  end.

(** The video directory and path of [_handle_live_photo]. *)
Definition video_dir_of (photo_path : string) : string :=
  Py.join (Py.dirname (Py.dirname photo_path)) "Videos".

Definition video_path_of (photo_path : string) : string :=
  let video_filename := fst (Py.splitext (Py.basename photo_path)) ++ ".mov" in
  Py.join (video_dir_of photo_path) video_filename.

(** [_handle_live_photo]: as [handle_live_photo] above, at that path. *)
Definition handle_live_photo (photo : Photo.t) (e : io) (photo_path : string)
    (fsys : filesystem) : bool * filesystem :=
  if has_video_version (Photo.versions photo) then
    match makedirs (mkdir_ok e) (video_dir_of photo_path) fsys with
    | None => (false, fsys)
    | Some fs1 =>
        let video_path := video_path_of photo_path in
        match video e with
        | None => (false, fs1)
        | Some bytes =>
            let fs2 := with_files fs1 (<[video_path := mk_file bytes None None]> (files fs1)) in
            (true, preserve_original_timestamps (video_utime_ok e) video_path
                     (Photo.created photo) fs2)
        end
    end
  else (false, fsys).

End PhotoDownloader.

(** ** Notions the properties are stated with *)

Section Notions.

Variable sha256 : list byte -> string.

(** The [unique_key] that [process_photo] builds for an asset whose fetch
    delivers [bytes]. *)
Definition unique_key_of (photo : Photo.t) (bytes : list byte) : dedup_key :=
  (Photo.id photo, date_str_of photo, sha256 bytes, length bytes).

(** [base_filename] of [process_photo]. *)
Definition base_filename_of (photo : Photo.t) : string :=
  date_str_of photo ++ "_" ++ Photo.filename photo.

(** The directory step of [process_photo] on an asset. *)
Definition directory_of (photo : Photo.t) (e : io) (base_dir photo_type : string)
    (album_name : option string) (use_loc : bool) (fsys : filesystem)
    : option string * filesystem :=
  plan_directory photo e base_dir photo_type album_name use_loc
                 (get_file_type_folder (Photo.filename photo)) (year_of photo) fsys.

(** The number of lines of a level in a log. *)
Definition count_level (lvl : string) (l : list log_line) : nat :=
  length (List.filter (fun x => String.eqb (level x) lvl) l).

(** The lines that report what became of an asset: its [SUCCESS] line,
    its [ERROR] line or its [SKIP duplicate] line. *)
Definition is_outcome (x : log_line) : bool :=
  String.eqb (level x) "SUCCESS" || String.eqb (level x) "ERROR"
  || match text x with MsgSkipDuplicate _ _ _ => true | _ => false end.

Definition count_outcomes (l : list log_line) : nat :=
  length (List.filter is_outcome l).

(** [r'] is a later state of the run of [r]: assets were handled and
    lines other than [SUCCESS] lines were logged in between, in any
    section. *)
Inductive later (r : run_state) : run_state -> Prop :=
| later_refl : later r r
| later_asset base_dir section photo_type album_name use_loc period total i a r1 :
    later r r1 ->
    later r (process_asset sha256 base_dir section photo_type album_name use_loc
                           period total i a r1)
| later_log m lvl r1 :
    later r r1 -> lvl <> "SUCCESS" -> later r (log_entry m lvl r1).

End Notions.

(** ** Notions of the proofs *)

(** [os.path.join] puts a prefix before its second argument; the prefix
    depends on that argument only through its first character. *)
Definition join_prefix (a : string) (absolute : bool) : string :=
  if absolute then ""
  else if String.eqb a "" || Py.endswith "/" a then a
  else a ++ "/".

(** The paths [os.path.exists] answers [True] for. *)
Definition taken (fsys : filesystem) : gset string := dom (files fsys) ∪ dirs fsys.

(** The path probed at round [k] of the loop of [process_photo]. *)
Definition candidate (photo_dir base_filename : string) (k : nat) : string :=
  Py.join photo_dir (numbered base_filename k).

(** The file system once [bytes] are staged in a fresh temporary file. *)
Definition staged_fs (bytes : list byte) (fsys : filesystem) : filesystem :=
  mk_fs (files fsys) (dirs fsys) (<[next_tmp fsys := bytes]> (temps fsys))
        (S (next_tmp fsys)) (moved fsys).

(** Stats, counter and log agree. *)
Definition consistent (r : run_state) : Prop :=
  sum_leaves (stats_of (run_store r)) = total_downloaded r
  /\ count_level "SUCCESS" (log r) = total_downloaded r.


(** Album counts are numbers and sit under ["Shared_Albums"]; every other
    entry is a dictionary of years. *)
Definition is_count (e : entry) : bool :=
  match e with Count _ => true | Years _ => false end.

Definition well_shaped (stats : stats_t) : Prop :=
  forall sec entries k e,
    alookup sec stats = Some entries -> alookup k entries = Some e ->
    (is_count e = true <-> sec = "Shared_Albums").

(** The calls [download_all_photos] makes when no album has an empty name:
    a library section without album, or the album section with a name. *)
Definition regular_call (photo_type : string) (album_name : option string) : Prop :=
  (album_name = None /\ photo_type <> "Shared_Albums")
  \/ (photo_type = "Shared_Albums" /\ exists n, album_name = Some n /\ n <> "").

(** The files moved since the run began are as many as the downloads
    counted, on well-shaped stats. *)
Definition counted (n0 : nat) (r : run_state) : Prop :=
  well_shaped (stats_of (run_store r))
  /\ length (moved (fsys_of (run_store r))) = n0 + total_downloaded r.

(** ** Concrete assets and runs *)

(** A digest that stands in for SHA-256 where a run is evaluated: the bytes
    themselves, so that two contents have equal digests only when they are
    equal. *)
Definition plain_digest (b : list byte) : string := string_of_list_byte b.

Definition march_1st : Datetime.t := Datetime.mk 2024 3 1 10 0 0.

Definition bytes1 : list byte := [x01; x02].
Definition bytes2 : list byte := [x03; x04; x05].

(** Every call answers. *)
Definition io_ok (b : list byte) : io := mk_io true (Some b) true true true None true.

(** The final move is refused. *)
Definition io_move_refused (b : list byte) : io :=
  mk_io true (Some b) false true true None true.

Definition all_sections : download_options := mk_options true true true.
Definition personal_only : download_options := mk_options true false false.

(** One asset with an id, seen in "shared with me" and in an album. *)
Definition asset_A1 : Photo.t := Photo.mk (Some "A1") "IMG_1.heic" (Some march_1st) VNone None [].

Definition api_refused_then_again : api :=
  mk_api (Some [])
         (Some [(asset_A1, io_move_refused bytes1)])
         (Some [mk_album "Trip" (Some [(asset_A1, io_ok bytes1)])]).

(** Two assets without id, of the same second and the same bytes, under
    two names. *)
Definition no_id_a : Photo.t := Photo.mk None "a.jpg" (Some march_1st) VNone None [].
Definition no_id_b : Photo.t := Photo.mk None "b.jpg" (Some march_1st) VNone None [].

Definition api_two_names : api :=
  mk_api (Some [(no_id_a, io_ok bytes1); (no_id_b, io_ok bytes1)]) None None.

(** A store whose index holds the key of [no_id_a]. *)
Definition store_with_key : store :=
  mk_store empty_fs [] {[unique_key_of plain_digest no_id_a bytes1]}.




(** The coordinate written [n / den] in decimal. The double nearest to it
    has a slightly different exact value, which rounds to the same hundredth
    in the cases below. *)
Definition decimal (neg : bool) (n : N) (den : positive) : pyfloat := mk_float neg n den.

Definition with_location (loc : pyval) : Photo.t :=
  Photo.mk (Some "P") "p.jpg" (Some march_1st) loc None [].

Definition with_encoded (enc : option pyval) : Photo.t :=
  Photo.mk (Some "P") "p.jpg" (Some march_1st) VNone (Some enc) [].




(** A file system with one file, at the computed path. *)
Definition fs_a_taken : filesystem :=
  mk_fs {["/out/a.jpg" := mk_file bytes1 None None]} ∅ {[0 := bytes2]} 1 [].

(** * Properties *)

(** ** Strings, numerals and paths *)

Lemma app_cons_str (x : ascii) (a b : string) : String x a ++ b = String x (a ++ b).
Proof. reflexivity. Qed.

Lemma app_nil_str (b : string) : "" ++ b = b.
Proof. reflexivity. Qed.

Lemma length_app_str (a b : string) :
  String.length (a ++ b) = String.length a + String.length b.
Proof.
  induction a as [|c a IH]; [reflexivity |].
  rewrite app_cons_str. simpl. now rewrite IH.
Qed.

Lemma app_assoc_str (a b c : string) : (a ++ b) ++ c = a ++ b ++ c.
Proof.
  induction a as [|x a IH]; [reflexivity |].
  rewrite !app_cons_str. now rewrite IH.
Qed.

Lemma app_inv_tail_str (a b t : string) : a ++ t = b ++ t -> a = b.
Proof.
  revert b. induction a as [|x a IH]; intros [|y b] H.
  - reflexivity.
  - apply (f_equal String.length) in H. rewrite !length_app_str in H. simpl in H. lia.
  - apply (f_equal String.length) in H. rewrite !length_app_str in H. simpl in H. lia.
  - rewrite !app_cons_str in H. injection H as -> H. f_equal. now apply IH.
Qed.

Lemma app_inv_head_str (a b t : string) : t ++ a = t ++ b -> a = b.
Proof.
  induction t as [|x t IH]; intros H; [assumption |].
  rewrite !app_cons_str in H. injection H. auto.
Qed.

Lemma read_nat_zeros (n : nat) (s : string) : Py.read_nat (Py.zeros n ++ s) = Py.read_nat s.
Proof.
  induction n as [|n IH]; [reflexivity |].
  change (Py.zeros (S n) ++ s) with (String "0" (Py.zeros n ++ s)).
  unfold Py.read_nat in *. simpl.
  destruct (NilEmpty.uint_of_string (Py.zeros n ++ s)) as [d|];
    destruct (NilEmpty.uint_of_string s) as [d'|]; simpl in *; try assumption.
Qed.

Lemma read_nat_str_nat (n : nat) : Py.read_nat (Py.str_nat n) = n.
Proof.
  unfold Py.read_nat, Py.str_nat. rewrite NilEmpty.usu. apply Unsigned.of_to.
Qed.

Lemma read_nat_zpad (w n : nat) : Py.read_nat (Py.zpad w n) = n.
Proof. unfold Py.zpad. rewrite read_nat_zeros. apply read_nat_str_nat. Qed.

Lemma zpad_inj (w a b : nat) : Py.zpad w a = Py.zpad w b -> a = b.
Proof.
  intros H. rewrite <- (read_nat_zpad w a), <- (read_nat_zpad w b). now rewrite H.
Qed.

Lemma str_nat_inj (a b : nat) : Py.str_nat a = Py.str_nat b -> a = b.
Proof.
  intros H. rewrite <- (read_nat_str_nat a), <- (read_nat_str_nat b). now rewrite H.
Qed.

Lemma join_as_prefix (a b : string) :
  Py.join a b = join_prefix a (Py.startswith "/" b) ++ b.
Proof.
  unfold Py.join, join_prefix.
  destruct (Py.startswith "/" b); [reflexivity |].
  destruct (String.eqb a "" || Py.endswith "/" a); [reflexivity |].
  symmetry. apply app_assoc_str.
Qed.

Lemma startswith_app (c : ascii) (s t u : string) :
  Py.startswith "/" (String c s ++ t) = Py.startswith "/" (String c s ++ u).
Proof.
  rewrite !app_cons_str. reflexivity.
Qed.

Example splitext_examples :
  Py.splitext "20240301_100000_IMG_1.heic" = ("20240301_100000_IMG_1", ".heic")
  /\ Py.splitext "a/.bashrc" = ("a/.bashrc", "")
  /\ Py.splitext "a.b/c" = ("a.b/c", "")
  /\ Py.splitext "archive.tar.gz" = ("archive.tar", ".gz").
Proof. repeat split; reflexivity. Qed.

Example join_examples :
  Py.join3 "/out" "Shared_Albums" "Trip" = "/out/Shared_Albums/Trip"
  /\ Py.join "/out/" "Personal" = "/out/Personal"
  /\ Py.join "/out" "/etc" = "/etc"
  /\ Py.dirname "/out/Personal/HEIC/2024/x.heic" = "/out/Personal/HEIC/2024".
Proof. repeat split; reflexivity. Qed.

Example zpad_examples :
  Py.zpad 3 7 = "007" /\ Py.zpad 3 1234 = "1234" /\ Py.zpad 2 0 = "00".
Proof. repeat split; reflexivity. Qed.

Example get_file_type_folder_examples :
  get_file_type_folder "IMG_1.HEIC" = "HEIC"
  /\ get_file_type_folder "clip.mov" = "Videos"
  /\ get_file_type_folder "notes" = "Others".
Proof. repeat split; reflexivity. Qed.

(** ** The conflict loop *)

Lemma path_exists_taken (fsys : filesystem) (p : string) :
  path_exists fsys p = true <-> p ∈ taken fsys.
Proof.
  unfold path_exists, taken. rewrite orb_true_iff, !bool_decide_eq_true. set_solver.
Qed.

Lemma path_exists_false (fsys : filesystem) (p : string) :
  path_exists fsys p = false -> files fsys !! p = None.
Proof.
  unfold path_exists. intros H. apply orb_false_iff in H as [H _].
  apply bool_decide_eq_false in H. now apply not_elem_of_dom.
Qed.

Lemma size_taken (fsys : filesystem) :
  size (taken fsys) <= size (dom (files fsys)) + size (dirs fsys).
Proof.
  unfold taken.
  rewrite (size_union_alt (dom (files fsys)) (dirs fsys)).
  assert (Hsub : dirs fsys ∖ dom (files fsys) ⊆ dirs fsys) by set_solver.
  apply subseteq_size in Hsub. lia.
Qed.

Lemma numbered_inj (base_filename : string) (a b : nat) :
  numbered base_filename a = numbered base_filename b -> a = b.
Proof.
  unfold numbered. destruct (Py.splitext base_filename) as [name ext]. intros H.
  apply app_inv_head_str in H. apply app_inv_head_str in H.
  apply app_inv_tail_str in H. now apply zpad_inj in H.
Qed.

Lemma numbered_startswith (base_filename : string) (a b : nat) :
  Py.startswith "/" (numbered base_filename a)
  = Py.startswith "/" (numbered base_filename b).
Proof.
  unfold numbered. destruct (Py.splitext base_filename) as [[|c name] ext].
  - rewrite !app_nil_str. apply (startswith_app "_" "").
  - apply startswith_app.
Qed.

Lemma candidate_inj (photo_dir base_filename : string) (a b : nat) :
  candidate photo_dir base_filename a = candidate photo_dir base_filename b -> a = b.
Proof.
  unfold candidate. rewrite !join_as_prefix.
  rewrite (numbered_startswith base_filename a b). intros H.
  apply app_inv_head_str in H. now apply numbered_inj in H.
Qed.

(** Distinct names that are all taken are no more than the taken paths. *)
Lemma pigeonhole (f : nat -> string) (X : gset string) (n : nat) :
  (forall a b, f a = f b -> a = b) ->
  (forall k, 1 <= k <= n -> f k ∈ X) ->
  n <= size X.
Proof.
  intros Hinj Hin.
  assert (Hnd : NoDup (f <$> seq 1 n)).
  { apply NoDup_fmap_2_strong; [| apply NoDup_seq]. intros x y _ _. apply Hinj. }
  assert (Hsub : (list_to_set (f <$> seq 1 n) : gset string) ⊆ X).
  { intros p Hp.
    apply elem_of_list_to_set, list_elem_of_fmap in Hp as (k & -> & Hk).
    apply elem_of_seq in Hk. apply Hin. lia. }
  apply subseteq_size in Hsub.
  rewrite size_list_to_set, length_fmap, length_seq in Hsub by exact Hnd.
  exact Hsub.
Qed.

Lemma resolve_conflict_spec (fuel : nat) (fsys : filesystem) (photo_dir base_filename : string) :
  forall (counter : nat) (filename filepath filename' filepath' : string),
    resolve_conflict fuel fsys photo_dir base_filename counter filename filepath
    = Some (filename', filepath') ->
    path_exists fsys filepath' = false
    /\ ((filename', filepath') = (filename, filepath)
        \/ (path_exists fsys filepath = true
            /\ exists k, counter <= k
                 /\ filename' = numbered base_filename k
                 /\ filepath' = candidate photo_dir base_filename k
                 /\ forall j, counter <= j < k ->
                      path_exists fsys (candidate photo_dir base_filename j) = true)).
Proof.
  induction fuel as [|fuel IH]; intros counter filename filepath filename' filepath' H;
    simpl in H; destruct (path_exists fsys filepath) eqn:Hex; try discriminate.
  - injection H as <- <-. auto.
  - apply IH in H as [Hfree [Heq | (Hex' & k & Hk & Hn & Hp & Hall)]].
    + injection Heq as -> ->. split; [assumption |]. right. split; [reflexivity |].
      exists counter. repeat split; [lia | intros j Hj; lia].
    + split; [assumption |]. right. split; [reflexivity |].
      exists k. repeat split; [lia | assumption | assumption |].
      intros j Hj. destruct (decide (j = counter)) as [-> | Hne].
      * exact Hex'.
      * apply Hall. lia.
  - injection H as <- <-. auto.
Qed.

Lemma resolve_conflict_total_aux (fuel : nat) (fsys : filesystem)
    (photo_dir base_filename : string) :
  forall (counter : nat) (filename filepath : string),
    (counter = 1 \/ filepath = candidate photo_dir base_filename (counter - 1)) ->
    (forall k, 1 <= k < counter - 1 -> candidate photo_dir base_filename k ∈ taken fsys) ->
    size (taken fsys) + 2 <= counter + fuel ->
    is_Some (resolve_conflict fuel fsys photo_dir base_filename counter filename filepath).
Proof.
  induction fuel as [|fuel IH]; intros counter filename filepath Hfp Hall Hsize;
    simpl; destruct (path_exists fsys filepath) eqn:Hex; eauto.
  - exfalso. destruct Hfp as [-> | ->]; [lia |].
    apply path_exists_taken in Hex.
    assert (counter - 1 <= size (taken fsys)); [| lia].
    apply (pigeonhole (candidate photo_dir base_filename)).
    + apply candidate_inj.
    + intros k Hk. destruct (decide (k = counter - 1)) as [-> | Hne];
        [assumption | apply Hall; lia].
  - apply IH.
    + right. unfold candidate. replace (S counter - 1) with counter by lia. reflexivity.
    + intros k Hk. destruct (decide (k = counter - 1)) as [-> | Hne].
      * destruct Hfp as [-> | ->]; [lia |]. now apply path_exists_taken.
      * apply Hall. lia.
    + lia.
Qed.

(** The loop of [process_photo] always ends within the fuel it is given. *)
Lemma resolve_conflict_total (fsys : filesystem) (photo_dir base_filename : string) :
  is_Some (resolve_conflict (enough_fuel fsys) fsys photo_dir base_filename 1
             base_filename (Py.join photo_dir base_filename)).
Proof.
  apply resolve_conflict_total_aux; [auto | intros k Hk; lia |].
  unfold enough_fuel. pose proof (size_taken fsys). lia.
Qed.

(** ** What the steps after the move leave alone *)

Lemma makedirs_frame (ok : bool) (p : string) (fsys fs1 : filesystem) :
  makedirs ok p fsys = Some fs1 ->
  files fs1 = files fsys /\ temps fs1 = temps fsys /\ next_tmp fs1 = next_tmp fsys
  /\ moved fs1 = moved fsys /\ dirs fsys ⊆ dirs fs1.
Proof.
  unfold makedirs. destruct (_ && _); [| discriminate].
  intros H. injection H as <-. simpl. repeat split. set_solver.
Qed.

Lemma preserve_original_timestamps_frame (ok : bool) (p : string)
    (d : option Datetime.t) (fsys : filesystem) :
  let fs1 := preserve_original_timestamps ok p d fsys in
  temps fs1 = temps fsys /\ next_tmp fs1 = next_tmp fsys /\ moved fs1 = moved fsys
  /\ dirs fs1 = dirs fsys
  /\ (forall q, q <> p -> files fs1 !! q = files fsys !! q)
  /\ (forall f, files fsys !! p = Some f ->
        exists f', files fs1 !! p = Some f' /\ content f' = content f).
Proof.
  unfold preserve_original_timestamps. destruct d as [d|]; [destruct ok |]; simpl;
    repeat split; eauto.
  - intros q Hq. now rewrite lookup_alter_ne.
  - intros f Hf. rewrite lookup_alter_eq, Hf. simpl. eauto.
Qed.

Lemma save_metadata_frame (photo : Photo.t) (e : io) (p : string) (fsys : filesystem) :
  let fs1 := save_metadata photo e p fsys in
  temps fs1 = temps fsys /\ next_tmp fs1 = next_tmp fsys /\ moved fs1 = moved fsys
  /\ dirs fs1 = dirs fsys
  /\ (forall q, q <> p -> files fs1 !! q = files fsys !! q)
  /\ (forall f, files fsys !! p = Some f ->
        exists f', files fs1 !! p = Some f' /\ content f' = content f).
Proof.
  unfold save_metadata.
  destruct (_ || _); [destruct (gps_tags _) as [gps|]; [destruct (exif_ok e) |] |];
    simpl; repeat split; eauto.
  - intros q Hq. now rewrite lookup_alter_ne.
  - intros f Hf. rewrite lookup_alter_eq, Hf. simpl. eauto.
Qed.

Lemma handle_live_photo_frame (photo : Photo.t) (e : io) (base_path filename : string)
    (fsys : filesystem) :
  let fs1 := snd (handle_live_photo photo e base_path filename fsys) in
  temps fs1 = temps fsys /\ next_tmp fs1 = next_tmp fsys /\ moved fs1 = moved fsys
  /\ (forall q, q <> video_path_of base_path filename ->
        files fs1 !! q = files fsys !! q).
Proof.
  unfold handle_live_photo.
  destruct (has_video_version _); [| simpl; auto].
  destruct (makedirs _ _ _) as [fs1|] eqn:Hmk; [| simpl; auto].
  apply makedirs_frame in Hmk as (Hf & Ht & Hn & Hm & _).
  destruct (video e) as [bytes|]; simpl; [| rewrite Hf; auto].
  set (fs2 := with_files fs1 _).
  destruct (preserve_original_timestamps_frame (video_utime_ok e)
              (video_path_of base_path filename) (Photo.created photo) fs2)
    as (Ht' & Hn' & Hm' & _ & Hother & _).
  rewrite Ht', Hn', Hm'. simpl. repeat split; try assumption.
  intros q Hq. rewrite Hother by assumption. subst fs2. simpl.
  rewrite lookup_insert_ne by congruence. now rewrite Hf.
Qed.

(** ** The stats dictionary *)

Lemma alookup_aset_eq {K V} `{EqDecision K} (k : K) (v : V) (d : list (K * V)) :
  alookup k (aset k v d) = Some v.
Proof.
  induction d as [|[k' v'] d IH]; simpl.
  - now rewrite decide_True.
  - destruct (decide (k' = k)); simpl.
    + now rewrite decide_True.
    + now rewrite decide_False.
Qed.

(** Writing [v] under [k] changes the sum of a dictionary by the difference
    with what was there. *)
Lemma sum_aset {K V} `{EqDecision K} (w : V -> nat) (k : K) (v : V) (d : list (K * V)) :
  list_sum (map (fun kv => w (snd kv)) (aset k v d)) + default 0 (w <$> alookup k d)
  = list_sum (map (fun kv => w (snd kv)) d) + w v.
Proof.
  induction d as [|[k' v'] d IH]; simpl.
  - lia.
  - destruct (decide (k' = k)); simpl; lia.
Qed.

Lemma sum_aset_nat {K} `{EqDecision K} (k : K) (v : nat) (d : list (K * nat)) :
  list_sum (map snd (aset k v d)) + default 0 (alookup k d)
  = list_sum (map snd d) + v.
Proof.
  induction d as [|[k' v'] d IH]; simpl.
  - lia.
  - destruct (decide (k' = k)); simpl; lia.
Qed.

Lemma ahas_alookup {K V} `{EqDecision K} (k : K) (d : list (K * V)) :
  ahas k d = false -> alookup k d = None.
Proof. unfold ahas. now destruct (alookup k d). Qed.

Lemma update_stats_album_sum (album_name : string) (stats stats' : stats_t) :
  update_stats_album album_name stats = Some stats' ->
  sum_leaves stats' = S (sum_leaves stats).
Proof.
  unfold update_stats_album, sum_leaves.
  set (stats1 := if ahas "Shared_Albums" stats then stats else aset "Shared_Albums" [] stats).
  set (sec := default [] (alookup "Shared_Albums" stats1)).
  set (sec1 := if ahas album_name sec then sec else aset album_name (Count 0) sec).
  destruct (alookup album_name sec1) as [[n|ys]|] eqn:Hl; try discriminate.
  intros H. injection H as <-.
  (* the section before and after *)
  assert (Hstats1 : list_sum (map (fun kv => section_total (snd kv)) stats1)
                    = list_sum (map (fun kv => section_total (snd kv)) stats)
                    /\ alookup "Shared_Albums" stats1 = Some sec).
  { subst sec stats1. destruct (ahas "Shared_Albums" stats) eqn:Hh.
    - split; [reflexivity |]. unfold ahas in Hh.
      now destruct (alookup "Shared_Albums" stats).
    - pose proof (sum_aset section_total "Shared_Albums" [] stats) as Hs.
      rewrite (ahas_alookup _ _ Hh) in Hs. rewrite alookup_aset_eq. simpl in *.
      split; [unfold section_total in *; simpl in *; lia | reflexivity]. }
  destruct Hstats1 as [Hsum1 Hsec].
  assert (Hsec1 : section_total sec1 = section_total sec).
  { subst sec1. destruct (ahas album_name sec) eqn:Hh; [reflexivity |].
    pose proof (sum_aset entry_total album_name (Count 0) sec) as Hs.
    rewrite (ahas_alookup _ _ Hh) in Hs. unfold section_total. simpl in *. lia. }
  pose proof (sum_aset section_total "Shared_Albums"
                (aset album_name (Count (n + 1)) sec1) stats1) as Hs.
  rewrite Hsec in Hs. simpl in Hs.
  pose proof (sum_aset entry_total album_name (Count (n + 1)) sec1) as Hs'.
  rewrite Hl in Hs'. simpl in Hs'. unfold section_total in *. lia.
Qed.

Lemma update_stats_library_sum (photo_type file_type : string) (year : pyyear)
    (stats stats' : stats_t) :
  update_stats_library photo_type file_type year stats = Some stats' ->
  sum_leaves stats' = S (sum_leaves stats).
Proof.
  unfold update_stats_library, sum_leaves.
  set (stats1 := if ahas photo_type stats then stats else aset photo_type [] stats).
  set (sec := default [] (alookup photo_type stats1)).
  set (sec1 := if ahas file_type sec then sec else aset file_type (Years []) sec).
  destruct (alookup file_type sec1) as [[n|ys]|] eqn:Hl; try discriminate.
  intros H. injection H as <-.
  set (ys1 := if ahas year ys then ys else aset year 0 ys).
  assert (Hstats1 : list_sum (map (fun kv => section_total (snd kv)) stats1)
                    = list_sum (map (fun kv => section_total (snd kv)) stats)
                    /\ alookup photo_type stats1 = Some sec).
  { subst sec stats1. destruct (ahas photo_type stats) eqn:Hh.
    - split; [reflexivity |]. unfold ahas in Hh.
      now destruct (alookup photo_type stats).
    - pose proof (sum_aset section_total photo_type [] stats) as Hs.
      rewrite (ahas_alookup _ _ Hh) in Hs. rewrite alookup_aset_eq. simpl in *.
      split; [unfold section_total in *; simpl in *; lia | reflexivity]. }
  destruct Hstats1 as [Hsum1 Hsec].
  assert (Hsec1 : section_total sec1 = section_total sec).
  { subst sec1. destruct (ahas file_type sec) eqn:Hh; [reflexivity |].
    pose proof (sum_aset entry_total file_type (Years []) sec) as Hs.
    rewrite (ahas_alookup _ _ Hh) in Hs. unfold section_total. simpl in *. lia. }
  assert (Hys1 : list_sum (map snd ys1) = list_sum (map snd ys)
                 /\ exists n, alookup year ys1 = Some n).
  { subst ys1. destruct (ahas year ys) eqn:Hh.
    - split; [reflexivity |]. unfold ahas in Hh. destruct (alookup year ys); eauto.
      discriminate.
    - pose proof (sum_aset_nat year 0 ys) as Hs.
      rewrite (ahas_alookup _ _ Hh) in Hs. rewrite alookup_aset_eq. simpl in *.
      split; [lia | eauto]. }
  destruct Hys1 as [Hsumy [n Hn]]. rewrite Hn. simpl.
  pose proof (sum_aset_nat year (n + 1) ys1) as Hy.
  rewrite Hn in Hy. simpl in Hy.
  pose proof (sum_aset entry_total file_type (Years (aset year (n + 1) ys1)) sec1) as Hs'.
  rewrite Hl in Hs'. simpl in Hs'.
  pose proof (sum_aset section_total photo_type
                (aset file_type (Years (aset year (n + 1) ys1)) sec1) stats1) as Hs.
  rewrite Hsec in Hs. simpl in Hs.
  unfold section_total in *. lia.
Qed.

Lemma update_stats_sum (photo_type : string) (album_name : option string)
    (file_type : string) (year : pyyear) (stats stats' : stats_t) :
  update_stats photo_type album_name file_type year stats = Some stats' ->
  sum_leaves stats' = S (sum_leaves stats).
Proof.
  unfold update_stats. destruct (truthy_opt_str album_name).
  - apply update_stats_album_sum.
  - apply update_stats_library_sum.
Qed.

(** ** The paths through [process_photo] *)

Section Facts.

Variable sha256 : list byte -> string.

Lemma stage_fetched (e : io) (fsys : filesystem) (bytes : list byte) :
  download e = Some bytes ->
  stage e fsys = (Some (next_tmp fsys), staged_fs bytes fsys).
Proof. unfold stage. now intros ->. Qed.

Lemma staged_key (photo : Photo.t) (bytes : list byte) (fsys : filesystem) :
  (Photo.id photo, date_str_of photo,
   compute_sha256 sha256 (staged_fs bytes fsys) (next_tmp fsys),
   getsize_tmp (staged_fs bytes fsys) (next_tmp fsys))
  = unique_key_of sha256 photo bytes.
Proof.
  unfold compute_sha256, getsize_tmp, unique_key_of, staged_fs. simpl.
  now rewrite lookup_insert_eq.
Qed.

Variables (photo : Photo.t) (e : io) (base_dir photo_type : string)
          (album_name : option string) (use_loc : bool) (s0 : store).

Let outcome := process_photo sha256 photo e base_dir photo_type album_name use_loc s0.
Let planned := directory_of photo e base_dir photo_type album_name use_loc (fsys_of s0).

(** A refused directory: nothing is fetched. *)
Lemma process_photo_no_directory (fs1 : filesystem) :
  planned = (None, fs1) ->
  outcome = (failed, mk_store fs1 (stats_of s0) (keys_of s0)).
Proof.
  subst outcome planned. unfold process_photo, directory_of. now intros ->.
Qed.

(** A fetch that raises. *)
Lemma process_photo_no_fetch (photo_dir : string) (fs1 : filesystem) :
  planned = (Some photo_dir, fs1) -> download e = None ->
  exists fs2, outcome = (failed, mk_store fs2 (stats_of s0) (keys_of s0))
              /\ files fs2 = files fs1 /\ moved fs2 = moved fs1.
Proof.
  subst outcome planned. unfold process_photo, directory_of. intros -> Hd.
  unfold stage. rewrite Hd. eexists. split; [reflexivity | split; reflexivity].
Qed.

(** The key is in [unique_photo_keys] already. *)
Lemma process_photo_duplicate (photo_dir : string) (fs1 : filesystem) (bytes : list byte) :
  planned = (Some photo_dir, fs1) -> download e = Some bytes ->
  unique_key_of sha256 photo bytes ∈ keys_of s0 ->
  outcome = (failed, mk_store (remove_tmp (next_tmp fs1) (staged_fs bytes fs1))
                              (stats_of s0) (keys_of s0)).
Proof.
  subst outcome planned. unfold process_photo, directory_of. intros -> Hd Hin.
  rewrite (stage_fetched _ _ _ Hd), staged_key. now rewrite bool_decide_eq_true_2.
Qed.

(** The key is new: it is added, and the rest is [commit]. *)
Lemma process_photo_new_key (photo_dir : string) (fs1 : filesystem) (bytes : list byte) :
  planned = (Some photo_dir, fs1) -> download e = Some bytes ->
  unique_key_of sha256 photo bytes ∉ keys_of s0 ->
  outcome = commit photo e photo_type album_name
              (get_file_type_folder (Photo.filename photo)) (year_of photo)
              photo_dir (base_filename_of photo) (next_tmp fs1)
              (mk_store (staged_fs bytes fs1) (stats_of s0)
                        ({[unique_key_of sha256 photo bytes]} ∪ keys_of s0)).
Proof.
  subst outcome planned. unfold process_photo, directory_of. intros -> Hd Hin.
  rewrite (stage_fetched _ _ _ Hd), staged_key. now rewrite bool_decide_eq_false_2.
Qed.

End Facts.

(** ** [commit] *)

Section CommitFacts.

Variables (photo : Photo.t) (e : io) (photo_type : string) (album_name : option string)
          (file_type : string) (year : pyyear) (photo_dir base_filename : string)
          (tmp : nat) (s0 : store).

Let outcome := commit photo e photo_type album_name file_type year photo_dir
                      base_filename tmp s0.

Lemma commit_keys : keys_of (snd outcome) = keys_of s0.
Proof.
  subst outcome. unfold commit.
  destruct (resolve_conflict _ _ _ _ _ _ _) as [[filename filepath]|]; [| reflexivity].
  destruct (shutil_move _ _ _ _) as [fs1|]; [| reflexivity].
  destruct (handle_live_photo _ _ _ _ _) as [live fs4].
  destruct (update_stats _ _ _ _ _); reflexivity.
Qed.

(** A refused move: the state is the one [commit] started from. *)
Lemma commit_refused : move_ok e = false -> outcome = (failed, s0).
Proof.
  subst outcome. unfold commit. intros Hm.
  destruct (resolve_conflict _ _ _ _ _ _ _) as [[filename filepath]|]; [| reflexivity].
  unfold shutil_move. now rewrite Hm.
Qed.

(** The stats change exactly when [commit] reports success, and then by
    one. *)
Lemma commit_stats :
  if fst (fst (fst outcome))
  then sum_leaves (stats_of (snd outcome)) = S (sum_leaves (stats_of s0))
  else stats_of (snd outcome) = stats_of s0.
Proof.
  subst outcome. unfold commit.
  destruct (resolve_conflict _ _ _ _ _ _ _) as [[filename filepath]|]; [| reflexivity].
  destruct (shutil_move _ _ _ _) as [fs1|]; [| reflexivity].
  destruct (handle_live_photo _ _ _ _ _) as [live fs4].
  destruct (update_stats _ _ _ _ _) eqn:Hu; simpl; [| reflexivity].
  now apply update_stats_sum in Hu.
Qed.

(** An accepted move: one path is added to the history, it was free, it is
    the computed path or a numbered one, and the other temporary files are
    as before. *)
Lemma commit_moved (bytes : list byte) :
  move_ok e = true -> temps (fsys_of s0) !! tmp = Some bytes ->
  exists filename filepath,
    resolve_conflict (enough_fuel (fsys_of s0)) (fsys_of s0) photo_dir base_filename 1
                     base_filename (Py.join photo_dir base_filename)
    = Some (filename, filepath)
    /\ moved (fsys_of (snd outcome)) = (moved (fsys_of s0) ++ [filepath])%list
    /\ temps (fsys_of (snd outcome)) = delete tmp (temps (fsys_of s0))
    /\ (fst outcome = failed \/ exists live, fst outcome = (true, live, Some filepath)).
Proof.
  subst outcome. unfold commit. intros Hm Ht.
  destruct (resolve_conflict_total (fsys_of s0) photo_dir base_filename)
    as [[filename filepath] Hr].
  rewrite Hr. exists filename, filepath. split; [reflexivity |].
  unfold shutil_move. rewrite Hm, Ht.
  set (fs1 := mk_fs _ _ _ _ _).
  set (fs2 := preserve_original_timestamps _ _ _ fs1).
  set (fs3 := save_metadata _ _ _ fs2).
  destruct (handle_live_photo photo e filepath filename fs3) as [live fs4] eqn:Hl.
  pose proof (handle_live_photo_frame photo e filepath filename fs3) as Hf4.
  rewrite Hl in Hf4. simpl in Hf4. destruct Hf4 as (Ht4 & _ & Hm4 & _).
  destruct (save_metadata_frame photo e filepath fs2) as (Ht3 & _ & Hm3 & _).
  destruct (preserve_original_timestamps_frame (utime_ok e) filepath
              (Photo.created photo) fs1) as (Ht2 & _ & Hm2 & _).
  fold fs2 in Ht2, Hm2. fold fs3 in Ht3, Hm3.
  assert (moved fs4 = (moved (fsys_of s0) ++ [filepath])%list
          /\ temps fs4 = delete tmp (temps (fsys_of s0))) as [Hmv Htm].
  { rewrite Hm4, Hm3, Hm2, Ht4, Ht3, Ht2. split; reflexivity. }
  destruct (update_stats _ _ _ _ _); simpl; repeat split; eauto.
Qed.

(** In every case the history grows by at most the returned path. *)
Lemma commit_moved_cases :
  moved (fsys_of (snd outcome)) = moved (fsys_of s0)
  \/ exists filepath, moved (fsys_of (snd outcome)) = (moved (fsys_of s0) ++ [filepath])%list.
Proof.
  destruct (move_ok e) eqn:Hm.
  - destruct (temps (fsys_of s0) !! tmp) as [bytes|] eqn:Ht.
    + destruct (commit_moved bytes Hm Ht) as (fn & fp & _ & H & _). eauto.
    + left. subst outcome. unfold commit.
      destruct (resolve_conflict _ _ _ _ _ _ _) as [[filename filepath]|]; [| reflexivity].
      unfold shutil_move. now rewrite Hm, Ht.
  - left. now rewrite (commit_refused Hm).
Qed.

End CommitFacts.

(** ** Invariants of [process_photo] *)

Lemma create_location_year_directory_frame (ok : bool) (base_dir location_name : string)
    (year : pyyear) (fsys : filesystem) :
  let fs1 := snd (create_location_year_directory ok base_dir location_name year fsys) in
  files fs1 = files fsys /\ temps fs1 = temps fsys /\ next_tmp fs1 = next_tmp fsys
  /\ moved fs1 = moved fsys /\ dirs fsys ⊆ dirs fs1.
Proof.
  unfold create_location_year_directory.
  destruct (makedirs ok _ fsys) as [fs1|] eqn:H1; [| simpl; auto].
  apply makedirs_frame in H1 as (Hf & Ht & Hn & Hm & Hd).
  destruct (makedirs ok _ fs1) as [fs2|] eqn:H2; simpl; [| auto].
  apply makedirs_frame in H2 as (Hf' & Ht' & Hn' & Hm' & Hd').
  rewrite Hf', Ht', Hn', Hm'. repeat split; try assumption. set_solver.
Qed.

Lemma create_type_year_directory_frame (ok : bool) (base_dir file_type : string)
    (year : pyyear) (fsys : filesystem) :
  let fs1 := snd (create_type_year_directory ok base_dir file_type year fsys) in
  files fs1 = files fsys /\ temps fs1 = temps fsys /\ next_tmp fs1 = next_tmp fsys
  /\ moved fs1 = moved fsys /\ dirs fsys ⊆ dirs fs1.
Proof.
  unfold create_type_year_directory.
  destruct (makedirs ok _ fsys) as [fs1|] eqn:H1; [| simpl; auto].
  apply makedirs_frame in H1 as (Hf & Ht & Hn & Hm & Hd).
  destruct (makedirs ok _ fs1) as [fs2|] eqn:H2; simpl; [| auto].
  apply makedirs_frame in H2 as (Hf' & Ht' & Hn' & Hm' & Hd').
  rewrite Hf', Ht', Hn', Hm'. repeat split; try assumption. set_solver.
Qed.

(** The directory step only adds directories. *)
Lemma directory_of_frame (photo : Photo.t) (e : io) (base_dir photo_type : string)
    (album_name : option string) (use_loc : bool) (fsys : filesystem) :
  let fs1 := snd (directory_of photo e base_dir photo_type album_name use_loc fsys) in
  files fs1 = files fsys /\ temps fs1 = temps fsys /\ next_tmp fs1 = next_tmp fsys
  /\ moved fs1 = moved fsys /\ dirs fsys ⊆ dirs fs1.
Proof.
  unfold directory_of, plan_directory.
  destruct (truthy_opt_str album_name).
  - destruct (makedirs _ _ _) as [fs1|] eqn:H1; simpl; [| auto].
    now apply makedirs_frame in H1.
  - destruct use_loc.
    + apply create_location_year_directory_frame.
    + apply create_type_year_directory_frame.
Qed.

Section Invariants.

Variable sha256 : list byte -> string.

Variables (photo : Photo.t) (e : io) (base_dir photo_type : string)
          (album_name : option string) (use_loc : bool) (s0 : store).

Let outcome := process_photo sha256 photo e base_dir photo_type album_name use_loc s0.
Let planned := directory_of photo e base_dir photo_type album_name use_loc (fsys_of s0).

(** The four ways through [process_photo]. *)
Lemma process_photo_cases :
  (exists fs1, planned = (None, fs1)
     /\ outcome = (failed, mk_store fs1 (stats_of s0) (keys_of s0)))
  \/ (exists photo_dir fs1 fs2, planned = (Some photo_dir, fs1) /\ download e = None
        /\ outcome = (failed, mk_store fs2 (stats_of s0) (keys_of s0))
        /\ files fs2 = files fs1 /\ moved fs2 = moved fs1)
  \/ (exists photo_dir fs1 bytes, planned = (Some photo_dir, fs1)
        /\ download e = Some bytes
        /\ (unique_key_of sha256 photo bytes ∈ keys_of s0)
        /\ outcome = (failed, mk_store (remove_tmp (next_tmp fs1) (staged_fs bytes fs1))
                                     (stats_of s0) (keys_of s0)))
  \/ (exists photo_dir fs1 bytes, planned = (Some photo_dir, fs1)
        /\ download e = Some bytes
        /\ (unique_key_of sha256 photo bytes ∉ keys_of s0)
        /\ outcome = commit photo e photo_type album_name
                        (get_file_type_folder (Photo.filename photo)) (year_of photo)
                        photo_dir (base_filename_of photo) (next_tmp fs1)
                        (mk_store (staged_fs bytes fs1) (stats_of s0)
                                  ({[unique_key_of sha256 photo bytes]} ∪ keys_of s0))).
Proof.
  destruct planned as [[photo_dir|] fs1] eqn:Hp.
  - destruct (download e) as [bytes|] eqn:Hd.
    + destruct (decide (unique_key_of sha256 photo bytes ∈ keys_of s0)) as [Hin|Hin].
      * right; right; left. exists photo_dir, fs1, bytes. repeat split; try assumption.
        apply (process_photo_duplicate sha256 photo e base_dir photo_type album_name
                 use_loc s0 photo_dir fs1 bytes Hp Hd Hin).
      * right; right; right. exists photo_dir, fs1, bytes. repeat split; try assumption.
        apply (process_photo_new_key sha256 photo e base_dir photo_type album_name
                 use_loc s0 photo_dir fs1 bytes Hp Hd Hin).
    + right; left.
      destruct (process_photo_no_fetch sha256 photo e base_dir photo_type album_name
                  use_loc s0 photo_dir fs1 Hp Hd) as (fs2 & H1 & H2 & H3).
      exists photo_dir, fs1, fs2. auto.
  - left. exists fs1. split; [reflexivity |].
    apply (process_photo_no_directory sha256 photo e base_dir photo_type album_name
             use_loc s0 fs1 Hp).
Qed.

(** [unique_photo_keys] only grows. *)
Lemma process_photo_keys_mono : keys_of s0 ⊆ keys_of (snd outcome).
Proof.
  destruct process_photo_cases
    as [(fs1 & _ & ->) | [(d & fs1 & fs2 & _ & _ & -> & _)
       | [(d & fs1 & b & _ & _ & _ & ->) | (d & fs1 & b & _ & _ & _ & ->)]]];
    simpl; try reflexivity.
  rewrite commit_keys. simpl. set_solver.
Qed.

(** [stats] gains one exactly when the function returns success. *)
Lemma process_photo_stats :
  if fst (fst (fst outcome))
  then sum_leaves (stats_of (snd outcome)) = S (sum_leaves (stats_of s0))
  else stats_of (snd outcome) = stats_of s0.
Proof.
  destruct process_photo_cases
    as [(fs1 & _ & ->) | [(d & fs1 & fs2 & _ & _ & -> & _)
       | [(d & fs1 & b & _ & _ & _ & ->) | (d & fs1 & b & _ & _ & _ & ->)]]];
    simpl; try reflexivity.
  match goal with |- context [commit ?a ?b ?c ?d ?f ?g ?h ?i ?j ?k] =>
    apply (commit_stats a b c d f g h i j k) end.
Qed.

(** An asset whose key is in the index when it is staged: nothing is
    written, counted or moved. *)
Lemma process_photo_duplicate_frame (bytes : list byte) :
  download e = Some bytes ->
  unique_key_of sha256 photo bytes ∈ keys_of s0 ->
  fst outcome = failed
  /\ files (fsys_of (snd outcome)) = files (fsys_of s0)
  /\ moved (fsys_of (snd outcome)) = moved (fsys_of s0)
  /\ stats_of (snd outcome) = stats_of s0
  /\ keys_of (snd outcome) = keys_of s0.
Proof.
  intros Hd Hin.
  pose proof (directory_of_frame photo e base_dir photo_type album_name use_loc
                (fsys_of s0)) as Hfr.
  fold planned in Hfr. simpl in Hfr. destruct Hfr as (Hf & _ & _ & Hm & _).
  destruct process_photo_cases
    as [(fs1 & Hp & ->) | [(d & fs1 & fs2 & Hp & Hd' & _)
       | [(d & fs1 & b & Hp & Hd' & _ & ->) | (d & fs1 & b & Hp & Hd' & Hnin & _)]]].
  - rewrite Hp in Hf, Hm. simpl in *. auto.
  - congruence.
  - rewrite Hp in Hf, Hm. simpl in *. auto.
  - exfalso. apply Hnin. congruence.
Qed.

End Invariants.

(** ** Committed files and stats, when every album has a name *)

Lemma alookup_aset {K V} `{EqDecision K} (k k' : K) (v : V) (d : list (K * V)) :
  alookup k' (aset k v d) = if decide (k = k') then Some v else alookup k' d.
Proof.
  induction d as [|[k0 v0] d IH]; simpl.
  - destruct (decide (k = k')); reflexivity.
  - destruct (decide (k0 = k)) as [-> | Hne]; simpl.
    + destruct (decide (k = k')); reflexivity.
    + destruct (decide (k0 = k')) as [-> | Hne'].
      * now rewrite decide_False by congruence.
      * exact IH.
Qed.

Lemma well_shaped_empty : well_shaped [].
Proof. intros sec entries k e H. discriminate. Qed.

Lemma ahas_true_alookup {K V} `{EqDecision K} (k : K) (d : list (K * V)) :
  ahas k d = true -> exists v, alookup k d = Some v.
Proof. unfold ahas. destruct (alookup k d); [eauto | discriminate]. Qed.

(** Writing a section whose entries have the right shape keeps the shape. *)
Lemma well_shaped_aset (sec : string) (entries : list (string * entry)) (stats : stats_t) :
  well_shaped stats ->
  (forall k e, alookup k entries = Some e -> (is_count e = true <-> sec = "Shared_Albums")) ->
  well_shaped (aset sec entries stats).
Proof.
  intros Hw He sec' entries' k e Hl Hk. rewrite alookup_aset in Hl.
  destruct (decide (sec = sec')) as [<- | Hne].
  - injection Hl as <-. eauto.
  - eauto.
Qed.

Lemma update_stats_album_shaped (album_name : string) (stats : stats_t) :
  well_shaped stats ->
  exists stats', update_stats_album album_name stats = Some stats' /\ well_shaped stats'.
Proof.
  intros Hw. unfold update_stats_album.
  set (stats1 := if ahas "Shared_Albums" stats then stats else aset "Shared_Albums" [] stats).
  set (sec := default [] (alookup "Shared_Albums" stats1)).
  set (sec1 := if ahas album_name sec then sec else aset album_name (Count 0) sec).
  assert (Hw1 : well_shaped stats1).
  { subst stats1. destruct (ahas "Shared_Albums" stats); [exact Hw |].
    apply well_shaped_aset; [exact Hw | intros k e H; discriminate]. }
  assert (Hsec : forall k e, alookup k sec = Some e -> is_count e = true).
  { subst sec. intros k e H. destruct (alookup "Shared_Albums" stats1) as [en|] eqn:Hl;
      simpl in H; [| discriminate].
    now apply (Hw1 "Shared_Albums" en k e Hl H). }
  assert (Hsec1 : forall k e, alookup k sec1 = Some e -> is_count e = true).
  { subst sec1. destruct (ahas album_name sec); [exact Hsec |].
    intros k e H. rewrite alookup_aset in H.
    destruct (decide (album_name = k)); [now injection H as <- | eauto]. }
  assert (Hex : exists n, alookup album_name sec1 = Some (Count n)).
  { assert (Hsome : exists e, alookup album_name sec1 = Some e).
    { subst sec1. destruct (ahas album_name sec) eqn:Hh.
      - now apply ahas_true_alookup.
      - rewrite alookup_aset_eq. eauto. }
    destruct Hsome as [[n|ys] He]; [eauto |]. apply Hsec1 in He. discriminate. }
  destruct Hex as [n ->]. eexists. split; [reflexivity |].
  apply well_shaped_aset; [exact Hw1 |].
  intros k e H. split; [reflexivity | intros _].
  rewrite alookup_aset in H.
  destruct (decide (album_name = k)); [now injection H as <- | eauto].
Qed.

Lemma update_stats_library_shaped (photo_type file_type : string) (year : pyyear)
    (stats : stats_t) :
  photo_type <> "Shared_Albums" ->
  well_shaped stats ->
  exists stats',
    update_stats_library photo_type file_type year stats = Some stats' /\ well_shaped stats'.
Proof.
  intros Hpt Hw. unfold update_stats_library.
  set (stats1 := if ahas photo_type stats then stats else aset photo_type [] stats).
  set (sec := default [] (alookup photo_type stats1)).
  set (sec1 := if ahas file_type sec then sec else aset file_type (Years []) sec).
  assert (Hw1 : well_shaped stats1).
  { subst stats1. destruct (ahas photo_type stats); [exact Hw |].
    apply well_shaped_aset; [exact Hw | intros k e H; discriminate]. }
  assert (Hsec : forall k e, alookup k sec = Some e -> is_count e = false).
  { subst sec. intros k e H. destruct (alookup photo_type stats1) as [en|] eqn:Hl;
      simpl in H; [| discriminate].
    pose proof (Hw1 photo_type en k e Hl H) as [Hc _].
    destruct (is_count e); [exfalso; auto | reflexivity]. }
  assert (Hsec1 : forall k e, alookup k sec1 = Some e -> is_count e = false).
  { subst sec1. destruct (ahas file_type sec); [exact Hsec |].
    intros k e H. rewrite alookup_aset in H.
    destruct (decide (file_type = k)); [now injection H as <- | eauto]. }
  assert (Hex : exists ys, alookup file_type sec1 = Some (Years ys)).
  { assert (Hsome : exists e, alookup file_type sec1 = Some e).
    { subst sec1. destruct (ahas file_type sec) eqn:Hh.
      - now apply ahas_true_alookup.
      - rewrite alookup_aset_eq. eauto. }
    destruct Hsome as [[n|ys] He]; [| eauto]. apply Hsec1 in He. discriminate. }
  destruct Hex as [ys ->]. eexists. split; [reflexivity |].
  apply well_shaped_aset; [exact Hw1 |].
  intros k e H. split; [| intros; contradiction].
  rewrite alookup_aset in H.
  destruct (decide (file_type = k)).
  - injection H as <-. discriminate.
  - intros Hc. apply Hsec1 in H. congruence.
Qed.

Lemma update_stats_shaped (photo_type : string) (album_name : option string)
    (file_type : string) (year : pyyear) (stats : stats_t) :
  regular_call photo_type album_name ->
  well_shaped stats ->
  exists stats',
    update_stats photo_type album_name file_type year stats = Some stats'
    /\ well_shaped stats'.
Proof.
  intros [[-> Hpt] | (-> & n & -> & Hn)] Hw; unfold update_stats; simpl.
  - now apply update_stats_library_shaped.
  - unfold truthy_str. apply String.eqb_neq in Hn. rewrite Hn. simpl.
    now apply update_stats_album_shaped.
Qed.

(** With well-shaped stats, [commit] reports success exactly when it moved
    the file. *)
Lemma commit_counts (photo : Photo.t) (e : io) (photo_type : string)
    (album_name : option string) (file_type : string) (year : pyyear)
    (photo_dir base_filename : string) (tmp : nat) (s0 : store) :
  regular_call photo_type album_name ->
  well_shaped (stats_of s0) ->
  let o := commit photo e photo_type album_name file_type year photo_dir base_filename
                  tmp s0 in
  well_shaped (stats_of (snd o))
  /\ length (moved (fsys_of (snd o)))
     = length (moved (fsys_of s0)) + (if fst (fst (fst o)) then 1 else 0).
Proof.
  intros Hreg Hw. cbv zeta. unfold commit.
  destruct (resolve_conflict _ _ _ _ _ _ _) as [[filename filepath]|];
    [| simpl; split; [assumption | lia]].
  destruct (shutil_move _ _ _ _) as [fs1|] eqn:Hmv; [| simpl; split; [assumption | lia]].
  assert (Hm1 : moved fs1 = (moved (fsys_of s0) ++ [filepath])%list).
  { unfold shutil_move in Hmv. destruct (move_ok e); [| discriminate].
    destruct (temps (fsys_of s0) !! tmp); [| discriminate]. now injection Hmv as <-. }
  set (fs2 := preserve_original_timestamps _ _ _ fs1).
  set (fs3 := save_metadata _ _ _ fs2).
  pose proof (handle_live_photo_frame photo e filepath filename fs3) as (_ & _ & Hm4 & _).
  destruct (save_metadata_frame photo e filepath fs2) as (_ & _ & Hm3 & _).
  destruct (preserve_original_timestamps_frame (utime_ok e) filepath
              (Photo.created photo) fs1) as (_ & _ & Hm2 & _).
  fold fs2 in Hm2. fold fs3 in Hm3.
  destruct (handle_live_photo photo e filepath filename fs3) as [live fs4].
  simpl in Hm4.
  destruct (update_stats_shaped photo_type album_name file_type year (stats_of s0) Hreg Hw)
    as (stats' & -> & Hw').
  simpl. split; [exact Hw' |].
  rewrite Hm4, Hm3, Hm2, Hm1, length_app. simpl. lia.
Qed.

Lemma process_photo_counts (sha256 : list byte -> string) (photo : Photo.t) (e : io)
    (base_dir photo_type : string) (album_name : option string) (use_loc : bool)
    (s0 : store) :
  regular_call photo_type album_name ->
  well_shaped (stats_of s0) ->
  let o := process_photo sha256 photo e base_dir photo_type album_name use_loc s0 in
  well_shaped (stats_of (snd o))
  /\ length (moved (fsys_of (snd o)))
     = length (moved (fsys_of s0)) + (if fst (fst (fst o)) then 1 else 0).
Proof.
  intros Hreg Hw. cbv zeta.
  pose proof (directory_of_frame photo e base_dir photo_type album_name use_loc
                (fsys_of s0)) as Hfr. simpl in Hfr. destruct Hfr as (_ & _ & _ & Hm & _).
  destruct (process_photo_cases sha256 photo e base_dir photo_type album_name use_loc s0)
    as [(fs1 & Hp & ->) | [(d & fs1 & fs2 & Hp & _ & -> & _ & Hm2)
       | [(d & fs1 & b & Hp & _ & _ & ->) | (d & fs1 & b & Hp & _ & _ & ->)]]];
    rewrite Hp in Hm; simpl in Hm; simpl.
  - split; [assumption | rewrite Hm; lia].
  - split; [assumption | rewrite Hm2, Hm; lia].
  - split; [assumption | rewrite Hm; lia].
  - match goal with |- context [commit ?a ?b ?c ?d ?f ?g ?h ?i ?j ?k] =>
      destruct (commit_counts a b c d f g h i j k Hreg Hw) as [H1 H2] end.
    split; [exact H1 |]. rewrite H2. simpl. rewrite Hm. lia.
Qed.

(** ** One round of the loop of [download_all_photos] *)

Lemma count_level_app (lvl : string) (l1 l2 : list log_line) :
  count_level lvl (l1 ++ l2) = count_level lvl l1 + count_level lvl l2.
Proof. unfold count_level. now rewrite List.filter_app, length_app. Qed.

Lemma count_outcomes_app (l1 l2 : list log_line) :
  count_outcomes (l1 ++ l2) = count_outcomes l1 + count_outcomes l2.
Proof. unfold count_outcomes. now rewrite List.filter_app, length_app. Qed.

Section Round.

Variable sha256 : list byte -> string.

Variables (base_dir section photo_type : string) (album_name : option string)
          (use_loc : bool) (period total i : nat) (photo : Photo.t) (e : io)
          (r : run_state).

Let r' := process_asset sha256 base_dir section photo_type album_name use_loc
                        period total i (photo, e) r.
Let uid := get_unique_photo_id photo.
Let res := process_photo sha256 photo e base_dir photo_type album_name use_loc
                         (run_store r).

(** The asset is skipped by its id: one [SKIP] line, one more in
    [skipped], and nothing else changes. *)
Lemma process_asset_skipped :
  uid ∈ processed_ids r ->
  run_store r' = run_store r /\ processed_ids r' = processed_ids r
  /\ total_downloaded r' = total_downloaded r /\ errors r' = errors r
  /\ skipped r' = S (skipped r)
  /\ log r' = (log r ++ [mk_line (entry_counter r) "INFO"
                            (MsgSkipDuplicate section uid (Photo.filename photo))])%list.
Proof.
  intros Hin. subst r' uid. unfold process_asset.
  rewrite bool_decide_eq_true_2 by exact Hin. simpl. repeat split.
Qed.

(** The asset goes through [process_photo]: the state is the one it
    leaves, and the lines added hold one outcome line, a [SUCCESS] line
    exactly when it returned success. *)
Lemma process_asset_processed :
  uid ∉ processed_ids r ->
  let success := fst (fst (fst res)) in
  run_store r' = snd res
  /\ processed_ids r' = (if success then {[uid]} ∪ processed_ids r else processed_ids r)
  /\ total_downloaded r' = (if success then S (total_downloaded r) else total_downloaded r)
  /\ errors r' = (if success then errors r else S (errors r))
  /\ skipped r' = skipped r
  /\ exists added, log r' = (log r ++ added)%list
       /\ count_level "SUCCESS" added = (if success then 1 else 0)
       /\ count_level "ERROR" added = (if success then 0 else 1)
       /\ count_outcomes added = 1.
Proof.
  intros Hnin. subst r' uid res. unfold process_asset.
  rewrite bool_decide_eq_false_2 by exact Hnin. simpl.
  destruct (process_photo _ _ _ _ _ _ _ _) as [[[success live] fp] st'].
  simpl. destruct success, live, (i mod period =? 0)%nat; simpl;
    repeat split; eexists; (split; [rewrite <- ?app_assoc; reflexivity | repeat split]).
Qed.

End Round.

(** ** The run as a whole *)

Section Run.

Variable sha256 : list byte -> string.

Lemma process_asset_keys_mono base_dir section photo_type album_name use_loc
    period total i (a : asset) (r : run_state) :
  keys_of (run_store r)
  ⊆ keys_of (run_store (process_asset sha256 base_dir section photo_type album_name
                                      use_loc period total i a r)).
Proof.
  destruct a as [photo e].
  destruct (decide (get_unique_photo_id photo ∈ processed_ids r)) as [Hin|Hnin].
  - destruct (process_asset_skipped sha256 base_dir section photo_type album_name
                use_loc period total i photo e r Hin) as (-> & _). reflexivity.
  - destruct (process_asset_processed sha256 base_dir section photo_type album_name
                use_loc period total i photo e r Hnin) as (-> & _).
    apply process_photo_keys_mono.
Qed.

Lemma process_asset_consistent base_dir section photo_type album_name use_loc
    period total i (a : asset) (r : run_state) :
  consistent r ->
  consistent (process_asset sha256 base_dir section photo_type album_name
                            use_loc period total i a r).
Proof.
  intros [Hs Hl]. destruct a as [photo e]. unfold consistent.
  destruct (decide (get_unique_photo_id photo ∈ processed_ids r)) as [Hin|Hnin].
  - destruct (process_asset_skipped sha256 base_dir section photo_type album_name
                use_loc period total i photo e r Hin) as (-> & _ & -> & _ & _ & ->).
    rewrite count_level_app, Hl. split; [assumption | unfold count_level; simpl; lia].
  - destruct (process_asset_processed sha256 base_dir section photo_type album_name
                use_loc period total i photo e r Hnin)
      as (-> & _ & -> & _ & _ & added & -> & Hsucc & _).
    rewrite count_level_app, Hsucc.
    pose proof (process_photo_stats sha256 photo e base_dir photo_type album_name
                  use_loc (run_store r)) as Hst.
    destruct (fst (fst (fst (process_photo _ _ _ _ _ _ _ _)))).
    + rewrite Hst. lia.
    + rewrite Hst. lia.
Qed.

Lemma later_keys_mono (r r' : run_state) :
  later sha256 r r' -> keys_of (run_store r) ⊆ keys_of (run_store r').
Proof.
  induction 1 as [| ? ? ? ? ? ? ? ? a r1 _ IH | m lvl r1 _ IH _]; [reflexivity | |].
  - etransitivity; [exact IH | apply process_asset_keys_mono].
  - exact IH.
Qed.

Lemma later_consistent (r r' : run_state) :
  later sha256 r r' -> consistent r -> consistent r'.
Proof.
  induction 1 as [| ? ? ? ? ? ? ? ? a r1 _ IH | m lvl r1 _ IH Hlvl]; intros Hc.
  - exact Hc.
  - apply process_asset_consistent. auto.
  - destruct (IH Hc) as [Hs Hl]. split; simpl; [exact Hs |].
    rewrite count_level_app, Hl. unfold count_level. simpl.
    apply String.eqb_neq in Hlvl. rewrite Hlvl. simpl. lia.
Qed.

Lemma later_info (r0 r : run_state) (m : message) :
  later sha256 r0 r -> later sha256 r0 (info m r).
Proof. intros H. apply later_log; [exact H | discriminate]. Qed.

Lemma later_error (r0 r : run_state) (m : message) :
  later sha256 r0 r -> later sha256 r0 (log_entry m "ERROR" r).
Proof. intros H. apply later_log; [exact H | discriminate]. Qed.

Lemma later_process_assets base_dir section photo_type album_name use_loc period total
    (photos : list asset) :
  forall (i : nat) (r0 r : run_state),
    later sha256 r0 r ->
    later sha256 r0 (process_assets sha256 base_dir section photo_type album_name
                                    use_loc period total i photos r).
Proof.
  induction photos as [|a rest IH]; intros i r0 r H; simpl; [exact H |].
  apply IH. now apply later_asset.
Qed.

Lemma later_process_albums base_dir use_loc n (als : list album) :
  forall (idx : nat) (r0 r : run_state),
    later sha256 r0 r ->
    later sha256 r0 (process_albums sha256 base_dir use_loc n idx als r).
Proof.
  induction als as [|al rest IH]; intros idx r0 r H; simpl; [exact H |].
  apply IH. unfold process_album. destruct (photos al) as [ps|].
  - apply later_info, later_process_assets, later_info, H.
  - apply later_error, H.
Qed.

(** Every state of the three sections is a later state of the one they
    start from. *)
Lemma later_sections (a : api) (opts : download_options) (output_dir : string)
    (use_loc : bool) (r0 r : run_state) :
  later sha256 r0 r -> later sha256 r0 (sections sha256 a opts output_dir use_loc r).
Proof.
  intros H. unfold sections.
  assert (H1 : later sha256 r0
                 (if personal opts then personal_section sha256 a output_dir use_loc r
                  else info (MsgText "Skipping Personal Library (not selected)") r)).
  { destruct (personal opts); [| now apply later_info].
    unfold personal_section. do 2 apply later_info.
    destruct (photos_all a) as [ps|].
    - apply later_process_assets. now do 6 apply later_info.
    - apply later_error. now do 3 apply later_info. }
  set (r1 := if personal opts then _ else _) in *. clearbody r1.
  assert (H2 : later sha256 r0
                 (if shared opts then shared_section sha256 a output_dir use_loc r1
                  else info (MsgText "Skipping Photos Shared With You (not selected)") r1)).
  { destruct (shared opts); [| now apply later_info].
    unfold shared_section. do 2 apply later_info.
    destruct (photos_shared_all a) as [[|p ps]|].
    - now do 4 apply later_info.
    - apply later_process_assets. now do 5 apply later_info.
    - apply later_error. now do 3 apply later_info. }
  set (r2 := if shared opts then _ else _) in *. clearbody r2.
  destruct (albums opts); [| now apply later_info].
  unfold albums_section. do 2 apply later_info.
  destruct (photos_shared_albums a) as [[|al als]|].
  - now do 4 apply later_info.
  - apply later_process_albums. now do 5 apply later_info.
  - apply later_error. now do 3 apply later_info.
Qed.

(** At the end of [download_all_photos] the sum of the stats leaves, the
    counter of downloads and the number of [SUCCESS] lines are equal. *)
Lemma download_all_photos_consistent (a : api) (output_dir : string)
    (opts : download_options) (use_loc : bool) (fsys : filesystem) (r : run_state) :
  download_all_photos sha256 a output_dir opts use_loc fsys = Some r ->
  consistent r.
Proof.
  unfold download_all_photos. destruct (makedirs true output_dir fsys) as [fs1|];
    [| discriminate].
  intros H. injection H as <-.
  apply (later_consistent (start fs1)).
  - unfold summary. do 8 apply later_info. apply later_sections. apply later_refl.
  - split; reflexivity.
Qed.

End Run.

Section Counting.

Variable sha256 : list byte -> string.

Lemma log_entry_counted (n0 : nat) (m : message) (lvl : string) (r : run_state) :
  counted n0 r -> counted n0 (log_entry m lvl r).
Proof. intros H. exact H. Qed.

Lemma process_asset_counted (n0 : nat) base_dir section photo_type album_name use_loc
    period total i (a : asset) (r : run_state) :
  regular_call photo_type album_name ->
  counted n0 r ->
  counted n0 (process_asset sha256 base_dir section photo_type album_name use_loc
                            period total i a r).
Proof.
  intros Hreg [Hw Hn]. destruct a as [photo e]. unfold counted.
  destruct (decide (get_unique_photo_id photo ∈ processed_ids r)) as [Hid|Hid].
  - destruct (process_asset_skipped sha256 base_dir section photo_type album_name
                use_loc period total i photo e r Hid) as (-> & _ & -> & _). auto.
  - destruct (process_asset_processed sha256 base_dir section photo_type album_name
                use_loc period total i photo e r Hid) as (-> & _ & -> & _).
    destruct (process_photo_counts sha256 photo e base_dir photo_type album_name use_loc
                (run_store r) Hreg Hw) as [Hw' Hn'].
    split; [exact Hw' |]. rewrite Hn', Hn.
    destruct (fst (fst (fst (process_photo _ _ _ _ _ _ _ _)))); lia.
Qed.

Lemma process_assets_counted (n0 : nat) base_dir section photo_type album_name use_loc
    period total (ps : list asset) :
  regular_call photo_type album_name ->
  forall (i : nat) (r : run_state),
    counted n0 r ->
    counted n0 (process_assets sha256 base_dir section photo_type album_name use_loc
                               period total i ps r).
Proof.
  intros Hreg. induction ps as [|a rest IH]; intros i r H; simpl; [exact H |].
  apply IH. now apply process_asset_counted.
Qed.

Lemma process_albums_counted (n0 : nat) base_dir use_loc n (als : list album) :
  Forall (fun al => name al <> "") als ->
  forall (idx : nat) (r : run_state),
    counted n0 r ->
    counted n0 (process_albums sha256 base_dir use_loc n idx als r).
Proof.
  induction 1 as [|al rest Hal _ IH]; intros idx r H; simpl; [exact H |].
  apply IH. unfold process_album. destruct (photos al) as [ps|].
  - apply log_entry_counted, process_assets_counted, log_entry_counted, H.
    right. split; [reflexivity | eauto].
  - apply log_entry_counted, H.
Qed.

Lemma sections_counted (n0 : nat) (a : api) (opts : download_options)
    (output_dir : string) (use_loc : bool) (r : run_state) :
  (forall als, photos_shared_albums a = Some als -> Forall (fun al => name al <> "") als) ->
  counted n0 r ->
  counted n0 (sections sha256 a opts output_dir use_loc r).
Proof.
  intros Hnames H. unfold sections.
  assert (H1 : counted n0
                 (if personal opts then personal_section sha256 a output_dir use_loc r
                  else info (MsgText "Skipping Personal Library (not selected)") r)).
  { destruct (personal opts); [| exact H].
    unfold personal_section. do 2 apply log_entry_counted.
    destruct (photos_all a) as [ps|]; [| exact H].
    apply process_assets_counted; [| exact H]. left. split; [reflexivity | discriminate]. }
  set (r1 := if personal opts then _ else _) in *. clearbody r1.
  assert (H2 : counted n0
                 (if shared opts then shared_section sha256 a output_dir use_loc r1
                  else info (MsgText "Skipping Photos Shared With You (not selected)") r1)).
  { destruct (shared opts); [| exact H1].
    unfold shared_section. do 2 apply log_entry_counted.
    destruct (photos_shared_all a) as [[|p ps]|]; try exact H1.
    apply process_assets_counted; [| exact H1]. left. split; [reflexivity | discriminate]. }
  set (r2 := if shared opts then _ else _) in *. clearbody r2.
  destruct (albums opts); [| exact H2].
  unfold albums_section. do 2 apply log_entry_counted.
  destruct (photos_shared_albums a) as [[|al als]|] eqn:Ha; try exact H2.
  apply process_albums_counted; [| exact H2]. now apply Hnames.
Qed.

(** When no album has an empty name, the files committed in a run are as
    many as the stats leaves sum to and as the [SUCCESS] lines. *)
Lemma download_all_photos_committed (a : api) (output_dir : string)
    (opts : download_options) (use_loc : bool) (fsys : filesystem) (r : run_state) :
  (forall als, photos_shared_albums a = Some als -> Forall (fun al => name al <> "") als) ->
  download_all_photos sha256 a output_dir opts use_loc fsys = Some r ->
  length (moved (fsys_of (run_store r))) = length (moved fsys) + total_downloaded r
  /\ sum_leaves (stats_of (run_store r)) = total_downloaded r
  /\ count_level "SUCCESS" (log r) = total_downloaded r.
Proof.
  intros Hnames Hrun.
  destruct (download_all_photos_consistent sha256 a output_dir opts use_loc fsys r Hrun)
    as [Hs Hl].
  split; [| auto].
  unfold download_all_photos in Hrun.
  destruct (makedirs true output_dir fsys) as [fs1|] eqn:Hmk; [| discriminate].
  injection Hrun as <-.
  apply makedirs_frame in Hmk as (_ & _ & _ & Hm & _). rewrite <- Hm.
  assert (H : counted (length (moved fs1))
                (sections sha256 a opts output_dir use_loc (start fs1))).
  { apply sections_counted; [exact Hnames |]. split; [apply well_shaped_empty |].
    simpl. lia. }
  exact (proj2 H).
Qed.

End Counting.

(** ** Deduplication *)

Section Dedup.

Variable sha256 : list byte -> string.

(** An asset that is staged has its key in the index afterwards, whether
    it was admitted or found there. *)
Lemma process_photo_staged_key (photo : Photo.t) (e : io) (base_dir photo_type : string)
    (album_name : option string) (use_loc : bool) (s0 : store)
    (photo_dir : string) (fs1 : filesystem) (bytes : list byte) :
  directory_of photo e base_dir photo_type album_name use_loc (fsys_of s0)
  = (Some photo_dir, fs1) ->
  download e = Some bytes ->
  unique_key_of sha256 photo bytes
  ∈ keys_of (snd (process_photo sha256 photo e base_dir photo_type album_name use_loc s0)).
Proof.
  intros Hp Hd.
  destruct (process_photo_cases sha256 photo e base_dir photo_type album_name use_loc s0)
    as [(fs & Hp' & _) | [(d & fs & fs2 & _ & Hd' & _)
       | [(d & fs & b & _ & Hd' & Hin & ->) | (d & fs & b & _ & Hd' & _ & ->)]]];
    try congruence.
  - simpl. congruence.
  - rewrite commit_keys. simpl. assert (b = bytes) as -> by congruence. set_solver.
Qed.

(** An admitted asset whose move is accepted is committed: its path is
    added to the history of moves. *)
Lemma process_photo_new_key_moved (photo : Photo.t) (e : io)
    (base_dir photo_type : string) (album_name : option string) (use_loc : bool)
    (s0 : store) (photo_dir : string) (fs1 : filesystem) (bytes : list byte) :
  directory_of photo e base_dir photo_type album_name use_loc (fsys_of s0)
  = (Some photo_dir, fs1) ->
  download e = Some bytes ->
  unique_key_of sha256 photo bytes ∉ keys_of s0 ->
  move_ok e = true ->
  exists filepath,
    moved (fsys_of (snd (process_photo sha256 photo e base_dir photo_type album_name
                                       use_loc s0)))
    = (moved (fsys_of s0) ++ [filepath])%list.
Proof.
  intros Hp Hd Hnin Hm.
  rewrite (process_photo_new_key sha256 photo e base_dir photo_type album_name use_loc
             s0 photo_dir fs1 bytes Hp Hd Hnin).
  match goal with |- context [commit ?a ?b ?c ?d ?f ?g ?h ?i ?j ?k] =>
    destruct (commit_moved a b c d f g h i j k bytes Hm) as (fn & fp & _ & Hmv & _) end.
  { simpl. apply lookup_insert_eq. }
  exists fp. rewrite Hmv. simpl.
  pose proof (directory_of_frame photo e base_dir photo_type album_name use_loc
                (fsys_of s0)) as Hfr.
  rewrite Hp in Hfr. simpl in Hfr. destruct Hfr as (_ & _ & _ & -> & _). reflexivity.
Qed.

(** An admitted asset whose move is refused is not committed. *)
Lemma process_photo_new_key_refused (photo : Photo.t) (e : io)
    (base_dir photo_type : string) (album_name : option string) (use_loc : bool)
    (s0 : store) (photo_dir : string) (fs1 : filesystem) (bytes : list byte) :
  directory_of photo e base_dir photo_type album_name use_loc (fsys_of s0)
  = (Some photo_dir, fs1) ->
  download e = Some bytes ->
  unique_key_of sha256 photo bytes ∉ keys_of s0 ->
  move_ok e = false ->
  let out := process_photo sha256 photo e base_dir photo_type album_name use_loc s0 in
  fst out = failed
  /\ moved (fsys_of (snd out)) = moved (fsys_of s0)
  /\ files (fsys_of (snd out)) = files (fsys_of s0)
  /\ stats_of (snd out) = stats_of s0.
Proof.
  intros Hp Hd Hnin Hm. cbv zeta.
  rewrite (process_photo_new_key sha256 photo e base_dir photo_type album_name use_loc
             s0 photo_dir fs1 bytes Hp Hd Hnin).
  rewrite commit_refused by exact Hm. simpl.
  pose proof (directory_of_frame photo e base_dir photo_type album_name use_loc
                (fsys_of s0)) as Hfr.
  rewrite Hp in Hfr. simpl in Hfr. destruct Hfr as (-> & _ & _ & -> & _). auto.
Qed.

(** An asset whose key is in the index when its round begins leaves the
    committed output as it was, by whichever test it is turned away. *)
Lemma process_asset_known_key base_dir section photo_type album_name use_loc
    period total i (photo : Photo.t) (e : io) (bytes : list byte) (r : run_state) :
  download e = Some bytes ->
  unique_key_of sha256 photo bytes ∈ keys_of (run_store r) ->
  let r' := process_asset sha256 base_dir section photo_type album_name use_loc
                          period total i (photo, e) r in
  moved (fsys_of (run_store r')) = moved (fsys_of (run_store r))
  /\ files (fsys_of (run_store r')) = files (fsys_of (run_store r))
  /\ stats_of (run_store r') = stats_of (run_store r)
  /\ total_downloaded r' = total_downloaded r
  /\ count_level "SUCCESS" (log r') = count_level "SUCCESS" (log r).
Proof.
  intros Hd Hin. cbv zeta.
  destruct (decide (get_unique_photo_id photo ∈ processed_ids r)) as [Hid|Hid].
  - destruct (process_asset_skipped sha256 base_dir section photo_type album_name
                use_loc period total i photo e r Hid) as (-> & _ & -> & _ & _ & ->).
    rewrite count_level_app. unfold count_level at 2. simpl. repeat split. lia.
  - destruct (process_asset_processed sha256 base_dir section photo_type album_name
                use_loc period total i photo e r Hid)
      as (-> & _ & -> & _ & _ & added & -> & Hs & _).
    destruct (process_photo_duplicate_frame sha256 photo e base_dir photo_type
                album_name use_loc (run_store r) bytes Hd Hin)
      as (Hres & Hf & Hm & Hst & _).
    rewrite count_level_app, Hs, Hres. simpl. repeat split; try assumption. lia.
Qed.

(** The round of an asset that gets as far as the uniqueness test leaves
    its key in the index. *)
Lemma process_asset_staged_key base_dir section photo_type album_name use_loc
    period total i (photo : Photo.t) (e : io) (bytes : list byte) (r : run_state)
    (photo_dir : string) (fs1 : filesystem) :
  get_unique_photo_id photo ∉ processed_ids r ->
  directory_of photo e base_dir photo_type album_name use_loc (fsys_of (run_store r))
  = (Some photo_dir, fs1) ->
  download e = Some bytes ->
  unique_key_of sha256 photo bytes
  ∈ keys_of (run_store (process_asset sha256 base_dir section photo_type album_name
                                      use_loc period total i (photo, e) r)).
Proof.
  intros Hid Hp Hd.
  destruct (process_asset_processed sha256 base_dir section photo_type album_name
              use_loc period total i photo e r Hid) as (-> & _).
  eapply process_photo_staged_key; eassumption.
Qed.

End Dedup.

(** ** Concrete assets and runs *)

(** ** C1, C3, C9, C10: the uniqueness test *)

Lemma directory_of_reached (photo : Photo.t) (e : io) (base_dir photo_type : string)
    (album_name : option string) (use_loc : bool) (fsys : filesystem) :
  fst (directory_of photo e base_dir photo_type album_name use_loc fsys) <> None ->
  exists photo_dir fs1,
    directory_of photo e base_dir photo_type album_name use_loc fsys
    = (Some photo_dir, fs1).
Proof.
  destruct (directory_of _ _ _ _ _ _ _) as [[d|] fs1]; simpl; [eauto | congruence].
Qed.

(** C1 (as amended). Let A and B have equal keys [(id, date string, digest,
    size)], A be handled before B in a run, in any two sections. If A is not
    itself turned away (its unique id and its key are not in the indexes yet)
    and neither its directory nor its final move is refused, then A is
    committed (its path joins the history of moves) and B is rejected: B's
    round moves no file, writes no file and counts nothing. *)
Theorem C1_dedup_exactly_one (sha256 : list byte -> string)
    (photoA photoB : Photo.t) (eA eB : io) (bytesA bytesB : list byte)
    (base_dir sectionA typeA : string) (albumA : option string)
    (sectionB typeB : string) (albumB : option string) (use_loc : bool)
    (periodA totalA iA periodB totalB iB : nat) (r r' : run_state) :
  download eA = Some bytesA ->
  download eB = Some bytesB ->
  unique_key_of sha256 photoA bytesA = unique_key_of sha256 photoB bytesB ->
  get_unique_photo_id photoA ∉ processed_ids r ->
  unique_key_of sha256 photoA bytesA ∉ keys_of (run_store r) ->
  fst (directory_of photoA eA base_dir typeA albumA use_loc (fsys_of (run_store r)))
  <> None ->
  move_ok eA = true ->
  let rA := process_asset sha256 base_dir sectionA typeA albumA use_loc
                          periodA totalA iA (photoA, eA) r in
  later sha256 rA r' ->
  let rB := process_asset sha256 base_dir sectionB typeB albumB use_loc
                          periodB totalB iB (photoB, eB) r' in
  (exists filepath,
      moved (fsys_of (run_store rA)) = (moved (fsys_of (run_store r)) ++ [filepath])%list)
  /\ moved (fsys_of (run_store rB)) = moved (fsys_of (run_store r'))
  /\ files (fsys_of (run_store rB)) = files (fsys_of (run_store r'))
  /\ stats_of (run_store rB) = stats_of (run_store r')
  /\ total_downloaded rB = total_downloaded r'.
Proof.
  intros HdA HdB Hkey Hid Hnew Hdir Hmove rA Hlater rB.
  destruct (directory_of_reached _ _ _ _ _ _ _ Hdir) as (photo_dir & fs1 & Hp).
  split.
  - subst rA.
    destruct (process_asset_processed sha256 base_dir sectionA typeA albumA use_loc
                periodA totalA iA photoA eA r Hid) as (-> & _).
    eapply process_photo_new_key_moved; eassumption.
  - assert (Hin : unique_key_of sha256 photoB bytesB ∈ keys_of (run_store r')).
    { rewrite <- Hkey. apply (later_keys_mono sha256 rA r' Hlater). subst rA.
      eapply process_asset_staged_key; eassumption. }
    destruct (process_asset_known_key sha256 base_dir sectionB typeB albumB use_loc
                periodB totalB iB photoB eB bytesB r' HdB Hin) as (H1 & H2 & H3 & H4 & _).
    auto.
Qed.

Lemma C1_dedup_exactly_one_witness :
  let r := start empty_fs in
  let rA := process_asset plain_digest "/out" "Shared_With_Me" "Shared_With_Me" None false
                          50 1 1 (asset_A1, io_ok bytes1) r in
  let rB := process_asset plain_digest "/out" "Shared_Albums" "Shared_Albums" (Some "Trip")
                          false 25 1 1 (asset_A1, io_ok bytes1) rA in
  (download (io_ok bytes1) = Some bytes1
   /\ (get_unique_photo_id asset_A1 ∉ processed_ids r)
   /\ (unique_key_of plain_digest asset_A1 bytes1 ∉ keys_of (run_store r))
   /\ fst (directory_of asset_A1 (io_ok bytes1) "/out" "Shared_With_Me" None false
                        (fsys_of (run_store r))) <> None
   /\ move_ok (io_ok bytes1) = true)
  /\ ((exists filepath,
         moved (fsys_of (run_store rA)) = (moved (fsys_of (run_store r)) ++ [filepath])%list)
      /\ moved (fsys_of (run_store rB)) = moved (fsys_of (run_store rA))
      /\ files (fsys_of (run_store rB)) = files (fsys_of (run_store rA))
      /\ stats_of (run_store rB) = stats_of (run_store rA)
      /\ total_downloaded rB = total_downloaded rA).
Proof.
  cbv zeta.
  assert (H1 : download (io_ok bytes1) = Some bytes1) by reflexivity.
  assert (H2 : get_unique_photo_id asset_A1 ∉ processed_ids (start empty_fs))
    by apply not_elem_of_empty.
  assert (H3 : unique_key_of plain_digest asset_A1 bytes1
               ∉ keys_of (run_store (start empty_fs))) by apply not_elem_of_empty.
  assert (H4 : fst (directory_of asset_A1 (io_ok bytes1) "/out" "Shared_With_Me" None false
                      (fsys_of (run_store (start empty_fs)))) <> None)
    by (vm_compute; discriminate).
  assert (H5 : move_ok (io_ok bytes1) = true) by reflexivity.
  split; [auto |].
  exact (C1_dedup_exactly_one plain_digest asset_A1 asset_A1 (io_ok bytes1) (io_ok bytes1)
           bytes1 bytes1 "/out" "Shared_With_Me" "Shared_With_Me" None
           "Shared_Albums" "Shared_Albums" (Some "Trip") false 50 1 1 25 1 1
           (start empty_fs) _ H1 H1 eq_refl H2 H3 H4 H5 (later_refl _ _)).
Defined.

(** C1 fails as stated: A (in "shared with me") and B (in an album) have the
    same id and the same bytes; the final move of A is refused, and B is
    then rejected by the key A left in the index. Neither is committed: at
    the end the key is in the index, no move was made, no file exists and
    the counter of downloads is 0. *)
Lemma C1_counterexample :
  option_map
    (fun r => (bool_decide (unique_key_of plain_digest asset_A1 bytes1
                            ∈ keys_of (run_store r)),
               moved (fsys_of (run_store r)),
               map_to_list (files (fsys_of (run_store r))),
               total_downloaded r))
    (download_all_photos plain_digest api_refused_then_again "/out" all_sections false
                         empty_fs)
  = Some (true, [], [], 0).
Proof. vm_compute. reflexivity. Qed.

(** Scenario 1 of the specification: the personal library and "shared with
    me" both return the asset [A1]. One file is committed, at
    [Personal/HEIC/2024/20240301_100000_IMG_1.heic]; the shared occurrence is
    skipped by its id. *)
Example scenario_1 :
  option_map
    (fun r => (moved (fsys_of (run_store r)),
               map (fun l => (level l, text l)) (List.filter is_outcome (log r)),
               total_downloaded r, errors r, skipped r))
    (download_all_photos plain_digest
       (mk_api (Some [(asset_A1, io_ok bytes1)]) (Some [(asset_A1, io_ok bytes1)]) (Some []))
       "/out" all_sections false empty_fs)
  = Some (["/out/Personal/HEIC/2024/20240301_100000_IMG_1.heic"],
          [("SUCCESS", MsgDownloaded "IMG_1.heic" "A1"
                         "/out/Personal/HEIC/2024/20240301_100000_IMG_1.heic" 2);
           ("INFO", MsgSkipDuplicate "Shared_With_Me" "A1" "IMG_1.heic")],
          1, 0, 1).
Proof. vm_compute. reflexivity. Qed.

(** C9. An asset A whose key is admitted and whose final move is then
    refused is not committed, and its key is in the index after its round and
    in every later state of the run; an asset B with the same key, handled in
    any later state and any section, is rejected: its round moves no file,
    writes no file and counts nothing. *)
Theorem C9_failed_commit_keeps_key (sha256 : list byte -> string)
    (photoA photoB : Photo.t) (eA eB : io) (bytesA bytesB : list byte)
    (base_dir sectionA typeA : string) (albumA : option string)
    (sectionB typeB : string) (albumB : option string) (use_loc : bool)
    (periodA totalA iA periodB totalB iB : nat) (r r' : run_state) :
  download eA = Some bytesA ->
  download eB = Some bytesB ->
  unique_key_of sha256 photoA bytesA = unique_key_of sha256 photoB bytesB ->
  get_unique_photo_id photoA ∉ processed_ids r ->
  unique_key_of sha256 photoA bytesA ∉ keys_of (run_store r) ->
  fst (directory_of photoA eA base_dir typeA albumA use_loc (fsys_of (run_store r)))
  <> None ->
  move_ok eA = false ->
  let rA := process_asset sha256 base_dir sectionA typeA albumA use_loc
                          periodA totalA iA (photoA, eA) r in
  later sha256 rA r' ->
  let rB := process_asset sha256 base_dir sectionB typeB albumB use_loc
                          periodB totalB iB (photoB, eB) r' in
  (moved (fsys_of (run_store rA)) = moved (fsys_of (run_store r))
   /\ files (fsys_of (run_store rA)) = files (fsys_of (run_store r)))
  /\ (unique_key_of sha256 photoA bytesA ∈ keys_of (run_store rA))
  /\ (unique_key_of sha256 photoA bytesA ∈ keys_of (run_store r'))
  /\ moved (fsys_of (run_store rB)) = moved (fsys_of (run_store r'))
  /\ files (fsys_of (run_store rB)) = files (fsys_of (run_store r'))
  /\ stats_of (run_store rB) = stats_of (run_store r')
  /\ total_downloaded rB = total_downloaded r'.
Proof.
  intros HdA HdB Hkey Hid Hnew Hdir Hmove rA Hlater rB.
  destruct (directory_of_reached _ _ _ _ _ _ _ Hdir) as (photo_dir & fs1 & Hp).
  assert (HkA : unique_key_of sha256 photoA bytesA ∈ keys_of (run_store rA)).
  { subst rA. eapply process_asset_staged_key; eassumption. }
  assert (Hk' : unique_key_of sha256 photoA bytesA ∈ keys_of (run_store r')).
  { apply (later_keys_mono sha256 rA r' Hlater), HkA. }
  split; [| split; [exact HkA | split; [exact Hk' |]]].
  - subst rA.
    destruct (process_asset_processed sha256 base_dir sectionA typeA albumA use_loc
                periodA totalA iA photoA eA r Hid) as (-> & _).
    destruct (process_photo_new_key_refused sha256 photoA eA base_dir typeA albumA use_loc
                (run_store r) photo_dir fs1 bytesA Hp HdA Hnew Hmove) as (_ & H1 & H2 & _).
    auto.
  - rewrite Hkey in Hk'.
    destruct (process_asset_known_key sha256 base_dir sectionB typeB albumB use_loc
                periodB totalB iB photoB eB bytesB r' HdB Hk') as (H1 & H2 & H3 & H4 & _).
    auto.
Qed.

Lemma C9_failed_commit_keeps_key_witness :
  let r := start empty_fs in
  let rA := process_asset plain_digest "/out" "Shared_With_Me" "Shared_With_Me" None false
                          50 1 1 (asset_A1, io_move_refused bytes1) r in
  let rB := process_asset plain_digest "/out" "Shared_Albums" "Shared_Albums" (Some "Trip")
                          false 25 1 1 (asset_A1, io_ok bytes1) rA in
  (download (io_move_refused bytes1) = Some bytes1
   /\ download (io_ok bytes1) = Some bytes1
   /\ (get_unique_photo_id asset_A1 ∉ processed_ids r)
   /\ (unique_key_of plain_digest asset_A1 bytes1 ∉ keys_of (run_store r))
   /\ fst (directory_of asset_A1 (io_move_refused bytes1) "/out" "Shared_With_Me" None
                        false (fsys_of (run_store r))) <> None
   /\ move_ok (io_move_refused bytes1) = false)
  /\ ((moved (fsys_of (run_store rA)) = moved (fsys_of (run_store r))
       /\ files (fsys_of (run_store rA)) = files (fsys_of (run_store r)))
      /\ (unique_key_of plain_digest asset_A1 bytes1 ∈ keys_of (run_store rA))
      /\ (unique_key_of plain_digest asset_A1 bytes1 ∈ keys_of (run_store rA))
      /\ moved (fsys_of (run_store rB)) = moved (fsys_of (run_store rA))
      /\ files (fsys_of (run_store rB)) = files (fsys_of (run_store rA))
      /\ stats_of (run_store rB) = stats_of (run_store rA)
      /\ total_downloaded rB = total_downloaded rA).
Proof.
  cbv zeta.
  assert (H1 : download (io_move_refused bytes1) = Some bytes1) by reflexivity.
  assert (H1' : download (io_ok bytes1) = Some bytes1) by reflexivity.
  assert (H2 : get_unique_photo_id asset_A1 ∉ processed_ids (start empty_fs))
    by apply not_elem_of_empty.
  assert (H3 : unique_key_of plain_digest asset_A1 bytes1
               ∉ keys_of (run_store (start empty_fs))) by apply not_elem_of_empty.
  assert (H4 : fst (directory_of asset_A1 (io_move_refused bytes1) "/out" "Shared_With_Me"
                      None false (fsys_of (run_store (start empty_fs)))) <> None)
    by (vm_compute; discriminate).
  assert (H5 : move_ok (io_move_refused bytes1) = false) by reflexivity.
  split; [repeat split; assumption |].
  exact (C9_failed_commit_keeps_key plain_digest asset_A1 asset_A1
           (io_move_refused bytes1) (io_ok bytes1)
           bytes1 bytes1 "/out" "Shared_With_Me" "Shared_With_Me" None
           "Shared_Albums" "Shared_Albums" (Some "Trip") false 50 1 1 25 1 1
           (start empty_fs) _ H1 H1' eq_refl H2 H3 H4 H5 (later_refl _ _)).
Defined.

(** C10. An asset that reaches the uniqueness test with its key in the
    index is rejected with no effect on the committed output: the temporary
    file that held its bytes is gone and the other temporary files are as
    before, the regular files, the history of moves and the stats are
    unchanged; only directories may have been added. An asset that is turned
    away earlier, by its unique id, is not fetched at all: its round leaves
    the whole store as it was. *)
Theorem C10_rejected_duplicate_frame (sha256 : list byte -> string)
    (photo : Photo.t) (e : io) (base_dir photo_type : string)
    (album_name : option string) (use_loc : bool) (s0 : store) (bytes : list byte) :
  fst (directory_of photo e base_dir photo_type album_name use_loc (fsys_of s0)) <> None ->
  download e = Some bytes ->
  unique_key_of sha256 photo bytes ∈ keys_of s0 ->
  let out := process_photo sha256 photo e base_dir photo_type album_name use_loc s0 in
  let tmp := next_tmp (fsys_of s0) in
  fst out = failed
  /\ temps (fsys_of (snd out)) !! tmp = None
  /\ (forall t, t <> tmp -> temps (fsys_of (snd out)) !! t = temps (fsys_of s0) !! t)
  /\ files (fsys_of (snd out)) = files (fsys_of s0)
  /\ moved (fsys_of (snd out)) = moved (fsys_of s0)
  /\ stats_of (snd out) = stats_of s0
  /\ keys_of (snd out) = keys_of s0
  /\ dirs (fsys_of s0) ⊆ dirs (fsys_of (snd out))
  /\ forall (section : string) (period total i : nat) (r : run_state),
      get_unique_photo_id photo ∈ processed_ids r ->
      run_store (process_asset sha256 base_dir section photo_type album_name use_loc
                               period total i (photo, e) r)
      = run_store r.
Proof.
  intros Hdir Hd Hin out tmp. subst out tmp.
  destruct (directory_of_reached _ _ _ _ _ _ _ Hdir) as (photo_dir & fs1 & Hp).
  rewrite (process_photo_duplicate sha256 photo e base_dir photo_type album_name use_loc
             s0 photo_dir fs1 bytes Hp Hd Hin).
  pose proof (directory_of_frame photo e base_dir photo_type album_name use_loc
                (fsys_of s0)) as Hfr.
  rewrite Hp in Hfr. simpl in Hfr. destruct Hfr as (Hf & Ht & Hn & Hm & Hds).
  simpl. rewrite Hn, Ht. repeat split; try assumption.
  - apply lookup_delete_eq.
  - intros t Hne. rewrite lookup_delete_ne, lookup_insert_ne by congruence. reflexivity.
  - intros section period total i r Hid.
    exact (proj1 (process_asset_skipped sha256 base_dir section photo_type album_name
                    use_loc period total i photo e r Hid)).
Qed.

Lemma C10_rejected_duplicate_frame_witness :
  let out := process_photo plain_digest no_id_a (io_ok bytes1) "/out" "Personal" None false
                           store_with_key in
  (fst (directory_of no_id_a (io_ok bytes1) "/out" "Personal" None false
                     (fsys_of store_with_key)) <> None
   /\ download (io_ok bytes1) = Some bytes1
   /\ (unique_key_of plain_digest no_id_a bytes1 ∈ keys_of store_with_key))
  /\ (fst out = failed
      /\ temps (fsys_of (snd out)) !! 0 = None
      /\ (forall t, t <> 0 -> temps (fsys_of (snd out)) !! t
                              = temps (fsys_of store_with_key) !! t)
      /\ files (fsys_of (snd out)) = files (fsys_of store_with_key)
      /\ moved (fsys_of (snd out)) = moved (fsys_of store_with_key)
      /\ stats_of (snd out) = stats_of store_with_key
      /\ keys_of (snd out) = keys_of store_with_key
      /\ dirs (fsys_of store_with_key) ⊆ dirs (fsys_of (snd out))
      /\ forall (section : string) (period total i : nat) (r : run_state),
          get_unique_photo_id no_id_a ∈ processed_ids r ->
          run_store (process_asset plain_digest "/out" section "Personal" None false
                                   period total i (no_id_a, io_ok bytes1) r)
          = run_store r).
Proof.
  cbv zeta.
  assert (H1 : fst (directory_of no_id_a (io_ok bytes1) "/out" "Personal" None false
                      (fsys_of store_with_key)) <> None) by (vm_compute; discriminate).
  assert (H2 : download (io_ok bytes1) = Some bytes1) by reflexivity.
  assert (H3 : unique_key_of plain_digest no_id_a bytes1 ∈ keys_of store_with_key)
    by (unfold store_with_key; simpl; set_solver).
  split; [auto |].
  exact (C10_rejected_duplicate_frame plain_digest no_id_a (io_ok bytes1) "/out" "Personal"
           None false store_with_key bytes1 H1 H2 H3).
Defined.

(** C3 (as amended). For an asset without id the fallback string
    [date_str + "_" + filename] is the unique id that [download_all_photos]
    tests against [processed_ids]; the identity component of the key that
    [process_photo] tests is the absent id itself. So two assets without id
    that have the same timestamp and the same bytes have equal keys whatever
    their names, and when the first has been staged the second is rejected:
    its round moves no file, writes no file and counts nothing. *)
Theorem C3_no_id_key (sha256 : list byte -> string)
    (photoA photoB : Photo.t) (eA eB : io) (bytes : list byte)
    (base_dir sectionA typeA : string) (albumA : option string)
    (sectionB typeB : string) (albumB : option string) (use_loc : bool)
    (periodA totalA iA periodB totalB iB : nat) (r r' : run_state) :
  Photo.id photoA = None ->
  Photo.id photoB = None ->
  Photo.created photoA = Photo.created photoB ->
  download eA = Some bytes ->
  download eB = Some bytes ->
  get_unique_photo_id photoA ∉ processed_ids r ->
  fst (directory_of photoA eA base_dir typeA albumA use_loc (fsys_of (run_store r)))
  <> None ->
  let rA := process_asset sha256 base_dir sectionA typeA albumA use_loc
                          periodA totalA iA (photoA, eA) r in
  later sha256 rA r' ->
  let rB := process_asset sha256 base_dir sectionB typeB albumB use_loc
                          periodB totalB iB (photoB, eB) r' in
  get_unique_photo_id photoB = date_str_of photoB ++ "_" ++ Photo.filename photoB
  /\ unique_key_of sha256 photoB bytes
     = (None, date_str_of photoB, sha256 bytes, length bytes)
  /\ unique_key_of sha256 photoA bytes = unique_key_of sha256 photoB bytes
  /\ moved (fsys_of (run_store rB)) = moved (fsys_of (run_store r'))
  /\ files (fsys_of (run_store rB)) = files (fsys_of (run_store r'))
  /\ stats_of (run_store rB) = stats_of (run_store r')
  /\ total_downloaded rB = total_downloaded r'.
Proof.
  intros HidA HidB Hcreated HdA HdB Hid Hdir rA Hlater rB.
  destruct (directory_of_reached _ _ _ _ _ _ _ Hdir) as (photo_dir & fs1 & Hp).
  assert (Hkey : unique_key_of sha256 photoA bytes = unique_key_of sha256 photoB bytes).
  { unfold unique_key_of, date_str_of. now rewrite HidA, HidB, Hcreated. }
  split; [| split; [| split; [exact Hkey |]]].
  - unfold get_unique_photo_id, date_str_of. now rewrite HidB.
  - unfold unique_key_of. now rewrite HidB.
  - assert (Hin : unique_key_of sha256 photoB bytes ∈ keys_of (run_store r')).
    { rewrite <- Hkey. apply (later_keys_mono sha256 rA r' Hlater). subst rA.
      eapply process_asset_staged_key; eassumption. }
    destruct (process_asset_known_key sha256 base_dir sectionB typeB albumB use_loc
                periodB totalB iB photoB eB bytes r' HdB Hin) as (H1 & H2 & H3 & H4 & _).
    auto.
Qed.

Lemma C3_no_id_key_witness :
  let r := start empty_fs in
  let rA := process_asset plain_digest "/out" "Personal" "Personal" None false
                          100 2 1 (no_id_a, io_ok bytes1) r in
  let rB := process_asset plain_digest "/out" "Personal" "Personal" None false
                          100 2 2 (no_id_b, io_ok bytes1) rA in
  (Photo.id no_id_a = None /\ Photo.id no_id_b = None
   /\ Photo.created no_id_a = Photo.created no_id_b
   /\ download (io_ok bytes1) = Some bytes1
   /\ (get_unique_photo_id no_id_a ∉ processed_ids r)
   /\ fst (directory_of no_id_a (io_ok bytes1) "/out" "Personal" None false
                        (fsys_of (run_store r))) <> None)
  /\ (get_unique_photo_id no_id_b = date_str_of no_id_b ++ "_" ++ Photo.filename no_id_b
      /\ unique_key_of plain_digest no_id_b bytes1
         = (None, date_str_of no_id_b, plain_digest bytes1, length bytes1)
      /\ unique_key_of plain_digest no_id_a bytes1 = unique_key_of plain_digest no_id_b bytes1
      /\ moved (fsys_of (run_store rB)) = moved (fsys_of (run_store rA))
      /\ files (fsys_of (run_store rB)) = files (fsys_of (run_store rA))
      /\ stats_of (run_store rB) = stats_of (run_store rA)
      /\ total_downloaded rB = total_downloaded rA).
Proof.
  cbv zeta.
  assert (H1 : download (io_ok bytes1) = Some bytes1) by reflexivity.
  assert (H2 : get_unique_photo_id no_id_a ∉ processed_ids (start empty_fs))
    by apply not_elem_of_empty.
  assert (H3 : fst (directory_of no_id_a (io_ok bytes1) "/out" "Personal" None false
                      (fsys_of (run_store (start empty_fs)))) <> None)
    by (vm_compute; discriminate).
  split; [repeat split; assumption |].
  exact (C3_no_id_key plain_digest no_id_a no_id_b (io_ok bytes1) (io_ok bytes1) bytes1
           "/out" "Personal" "Personal" None "Personal" "Personal" None false
           100 2 1 100 2 2 (start empty_fs) _ eq_refl eq_refl eq_refl H1 H1 H2 H3
           (later_refl _ _)).
Defined.

(** C3 fails as stated: [no_id_a] and [no_id_b] have no id, the same
    second, the same bytes and two names. The identity component of the key
    of [no_id_b] is the absent id, not the fallback string; the keys are
    equal; and at the end of the run only [a.jpg] was moved: [b.jpg] was
    rejected, and no file exists at its path. *)
Lemma C3_counterexample :
  (fst (fst (fst (unique_key_of plain_digest no_id_b bytes1))),
   get_unique_photo_id no_id_b,
   bool_decide (unique_key_of plain_digest no_id_a bytes1
                = unique_key_of plain_digest no_id_b bytes1),
   option_map
     (fun r => (moved (fsys_of (run_store r)),
                files (fsys_of (run_store r)) !! "/out/Personal/JPEG/2024/20240301_100000_b.jpg",
                total_downloaded r))
     (download_all_photos plain_digest api_two_names "/out" personal_only false empty_fs))
  = (None, "20240301_100000_b.jpg", true,
     Some (["/out/Personal/JPEG/2024/20240301_100000_a.jpg"], None, 1)).
Proof. vm_compute. reflexivity. Qed.

(** ** C2, C5: the log and the stats *)

(** Every round adds exactly one outcome line to the log, and there is a
    next round whatever became of the asset: [process_asset] is total. *)
Lemma process_asset_one_outcome (sha256 : list byte -> string)
    base_dir section photo_type album_name use_loc period total i
    (a : asset) (r : run_state) :
  count_outcomes (log (process_asset sha256 base_dir section photo_type album_name
                                     use_loc period total i a r))
  = S (count_outcomes (log r)).
Proof.
  destruct a as [photo e].
  destruct (decide (get_unique_photo_id photo ∈ processed_ids r)) as [Hid|Hid].
  - destruct (process_asset_skipped sha256 base_dir section photo_type album_name
                use_loc period total i photo e r Hid) as (_ & _ & _ & _ & _ & ->).
    rewrite count_outcomes_app. unfold count_outcomes at 2. simpl. lia.
  - destruct (process_asset_processed sha256 base_dir section photo_type album_name
                use_loc period total i photo e r Hid)
      as (_ & _ & _ & _ & _ & added & -> & _ & _ & Hone).
    rewrite count_outcomes_app, Hone. lia.
Qed.

(** A committed asset has its [SUCCESS] line, an asset skipped by its id has
    its [SKIP] line. *)
Lemma process_asset_success_line (sha256 : list byte -> string)
    base_dir section photo_type album_name use_loc period total i
    (photo : Photo.t) (e : io) (r : run_state) :
  get_unique_photo_id photo ∉ processed_ids r ->
  let success := fst (fst (fst (process_photo sha256 photo e base_dir photo_type album_name
                                              use_loc (run_store r)))) in
  let r' := process_asset sha256 base_dir section photo_type album_name use_loc
                          period total i (photo, e) r in
  count_level "SUCCESS" (log r')
  = count_level "SUCCESS" (log r) + (if success then 1 else 0)
  /\ count_level "ERROR" (log r')
     = count_level "ERROR" (log r) + (if success then 0 else 1).
Proof.
  intros Hid. cbv zeta.
  destruct (process_asset_processed sha256 base_dir section photo_type album_name
              use_loc period total i photo e r Hid)
    as (_ & _ & _ & _ & _ & added & -> & Hs & He & _).
  rewrite !count_level_app, Hs, He. auto.
Qed.

(** C2 at its failing input: [no_id_b] is rejected as a duplicate of
    [no_id_a] by the uniqueness test of [process_photo]; its outcome line is
    an [ERROR] line ("Failed to download"), it is counted in [errors] and not
    in [skipped]. *)
Theorem C2_duplicate_logged_as_error :
  option_map
    (fun r => (map (fun l => (level l, text l)) (List.filter is_outcome (log r)),
               errors r, skipped r))
    (download_all_photos plain_digest api_two_names "/out" personal_only false empty_fs)
  = Some ([("SUCCESS", MsgDownloaded "a.jpg" "20240301_100000_a.jpg"
                         "/out/Personal/JPEG/2024/20240301_100000_a.jpg" 2);
           ("ERROR", MsgFailed "b.jpg")],
          1, 0).
Proof. vm_compute. reflexivity. Qed.


(** ** C8: the location bucket *)

(** Scenario 4 of the specification, in the three shapes of the location
    attribute and in the encoded field. *)
Lemma get_location_name_new_york :
  let lat := VFloat (decimal false 407128 10000) in
  let lon := VFloat (decimal true 740060 10000) in
  get_location_name (with_location (VSeq [lat; lon])) = "Lat40.71_Lon-74.01"
  /\ get_location_name (with_location (VDict [("latitude", lat); ("longitude", lon)]))
     = "Lat40.71_Lon-74.01"
  /\ get_location_name
       (with_location (VDict [("location", VDict [("lat", lat); ("lon", lon)])]))
     = "Lat40.71_Lon-74.01"
  /\ get_location_name (with_encoded (Some (VDict [("lat", lat); ("lon", lon)])))
     = "Lat40.71_Lon-74.01".
Proof. repeat split; reflexivity. Qed.

(** Without any coordinates the bucket is ["Unknown_Location"]. *)
Lemma get_location_name_unknown (photo : Photo.t) :
  Photo.location photo = VNone ->
  encoded_location (Photo.location_enc photo) = None ->
  get_location_name photo = "Unknown_Location".
Proof. unfold get_location_name. now intros -> ->. Qed.

(** A pair of numbers always gives its bucket. *)
Lemma get_location_name_pair (photo : Photo.t) (lat lon : pyfloat) :
  Photo.location photo = VSeq [VFloat lat; VFloat lon] ->
  get_location_name photo
  = "Lat" ++ repr_float (round2 lat) ++ "_Lon" ++ repr_float (round2 lon).
Proof. unfold get_location_name. now intros ->. Qed.

(** C8 at its failing input: a dictionary with latitude 0.0 and longitude
    10.0. [loc.get('latitude') or loc.get('lat')] takes the zero for a missing
    value, and the bucket is ["Unknown_Location"]; the same coordinates given
    as a pair give ["Lat0.0_Lon10.0"]. *)
Theorem C8_zero_latitude_is_unknown :
  let lat := VFloat (decimal false 0 1) in
  let lon := VFloat (decimal false 10 1) in
  let at_equator := with_location (VDict [("latitude", lat); ("longitude", lon)]) in
  get_location_name at_equator = "Unknown_Location"
  /\ fst (directory_of at_equator (io_ok bytes1) "/out" "Personal" None true empty_fs)
     = Some "/out/Personal/Unknown_Location/2024"
  /\ get_location_name (with_location (VSeq [lat; lon])) = "Lat0.0_Lon10.0".
Proof. repeat split; vm_compute; reflexivity. Qed.

(** ** C7: the directory of a shared album *)






(** ** C6: the companion video *)








(** The place [PhotoDownloader._handle_live_photo] computes is yet another
    one: a [Videos] directory beside the directory of the original. *)
Lemma legacy_video_path :
  PhotoDownloader.video_path_of
    "/out/Personal/HEIC/2024/03-March/20240301_100000_IMG_1.heic"
  = "/out/Personal/HEIC/2024/Videos/20240301_100000_IMG_1.mov".
Proof. reflexivity. Qed.

(** ** C4: name conflicts *)

Lemma numbered_split (base_filename : string) (k : nat) :
  numbered base_filename k
  = fst (Py.splitext base_filename) ++ "_" ++ Py.zpad 3 k ++ snd (Py.splitext base_filename).
Proof. unfold numbered. now destruct (Py.splitext base_filename). Qed.

Lemma legacy_numbered_inj (base ext : string) (a b : nat) :
  PhotoDownloader.numbered base ext a = PhotoDownloader.numbered base ext b -> a = b.
Proof.
  unfold PhotoDownloader.numbered. intros H.
  apply app_inv_head_str in H. apply app_inv_head_str in H.
  apply app_inv_tail_str in H. now apply str_nat_inj in H.
Qed.

Lemma legacy_find_free_spec (fuel : nat) (fsys : filesystem) (base ext : string) :
  forall (i : nat) (target : string),
    PhotoDownloader.find_free fuel fsys base ext i = Some target ->
    path_exists fsys target = false
    /\ exists k, i <= k /\ target = PhotoDownloader.numbered base ext k
         /\ forall j, i <= j < k ->
              path_exists fsys (PhotoDownloader.numbered base ext j) = true.
Proof.
  induction fuel as [|fuel IH]; intros i target H; simpl in H;
    destruct (path_exists fsys (PhotoDownloader.numbered base ext i)) eqn:Hex;
    try discriminate.
  - injection H as <-. split; [assumption |]. exists i. repeat split; [lia | intros; lia].
  - apply IH in H as (Hfree & k & Hk & -> & Hall). split; [assumption |].
    exists k. repeat split; [lia |]. intros j Hj.
    destruct (decide (j = i)) as [-> | Hne]; [assumption | apply Hall; lia].
  - injection H as <-. split; [assumption |]. exists i. repeat split; [lia | intros; lia].
Qed.

Lemma legacy_find_free_total (fuel : nat) (fsys : filesystem) (base ext : string) :
  forall (i : nat),
    (forall k, 1 <= k < i -> PhotoDownloader.numbered base ext k ∈ taken fsys) ->
    size (taken fsys) < i + fuel ->
    is_Some (PhotoDownloader.find_free fuel fsys base ext i).
Proof.
  induction fuel as [|fuel IH]; intros i Hall Hsize; simpl;
    destruct (path_exists fsys (PhotoDownloader.numbered base ext i)) eqn:Hex; eauto.
  - exfalso. apply path_exists_taken in Hex.
    assert (i <= size (taken fsys)); [| lia].
    apply (pigeonhole (PhotoDownloader.numbered base ext)).
    + apply legacy_numbered_inj.
    + intros k Hk. destruct (decide (k = i)) as [-> | Hne]; [assumption | apply Hall; lia].
  - apply IH; [| lia]. intros k Hk.
    destruct (decide (k = i)) as [-> | Hne]; [now apply path_exists_taken | apply Hall; lia].
Qed.

(** C4 (as amended). When the computed path exists, both pipelines try
    numbered names, the number inserted right before the extension: in
    [process_photo] the names [_001], [_002], ... (three digits, padded with
    zeros), in [PhotoDownloader._process_single_photo] the names [_1], [_2],
    ... (not padded). The loop ends at the first number [k] whose name is
    free, after one round per name that is taken; the file is then moved to
    that free path, where it has the staged bytes, and every file that
    existed is still there, unchanged. *)
Theorem C4_conflict_suffix (fsys : filesystem) (tmp : nat) (bytes : list byte) :
  temps fsys !! tmp = Some bytes ->
  (forall (photo_dir base_filename : string),
      path_exists fsys (Py.join photo_dir base_filename) = true ->
      exists k,
        let filename := fst (Py.splitext base_filename) ++ "_" ++ Py.zpad 3 k
                        ++ snd (Py.splitext base_filename) in
        let filepath := Py.join photo_dir filename in
        1 <= k <= S (size (taken fsys))
        /\ resolve_conflict (enough_fuel fsys) fsys photo_dir base_filename 1
                            base_filename (Py.join photo_dir base_filename)
           = Some (filename, filepath)
        /\ (forall j, 1 <= j < k ->
              path_exists fsys (candidate photo_dir base_filename j) = true)
        /\ path_exists fsys filepath = false
        /\ exists fs',
             shutil_move true tmp filepath fsys = Some fs'
             /\ files fs' !! filepath = Some (mk_file bytes None None)
             /\ forall q f, files fsys !! q = Some f -> files fs' !! q = Some f)
  /\ (forall (filepath : string),
        path_exists fsys filepath = true ->
        exists k,
          let target := fst (Py.splitext filepath) ++ "_" ++ Py.str_nat k
                        ++ snd (Py.splitext filepath) in
          1 <= k <= S (size (taken fsys))
          /\ PhotoDownloader.final_path fsys filepath = Some target
          /\ (forall j, 1 <= j < k ->
                path_exists fsys (PhotoDownloader.numbered (fst (Py.splitext filepath))
                                    (snd (Py.splitext filepath)) j) = true)
          /\ path_exists fsys target = false
          /\ exists fs',
               PhotoDownloader.move_to_final true tmp filepath fsys = Some (target, fs')
               /\ files fs' !! target = Some (mk_file bytes None None)
               /\ forall q f, files fsys !! q = Some f -> files fs' !! q = Some f).
Proof.
  intros Htmp. split.
  - intros photo_dir base_filename Hex.
    destruct (resolve_conflict_total fsys photo_dir base_filename) as [[fn fp] Hr].
    pose proof Hr as Hspec.
    apply resolve_conflict_spec in Hspec as [Hfree [Heq | (_ & k & Hk & Hn & Hc & Hall)]].
    { injection Heq as -> ->. congruence. }
    exists k. cbv zeta. rewrite <- numbered_split. fold (candidate photo_dir base_filename k).
    rewrite <- Hn, <- Hc. repeat split; try assumption.
    + assert (k - 1 <= size (taken fsys)); [| lia].
      apply (pigeonhole (candidate photo_dir base_filename)).
      * apply candidate_inj.
      * intros j Hj. apply path_exists_taken, Hall. lia.
    + unfold shutil_move. rewrite Htmp. eexists. split; [reflexivity |]. simpl.
      split; [apply lookup_insert_eq |].
      intros q f Hq. rewrite lookup_insert_ne; [assumption |].
      intros ->. apply path_exists_false in Hfree. congruence.
  - intros filepath Hex.
    unfold PhotoDownloader.move_to_final, PhotoDownloader.final_path. rewrite Hex.
    change (negb true) with false.
    destruct (Py.splitext filepath) as [base ext]. cbv beta iota zeta. cbn [fst snd].
    destruct (legacy_find_free_total (S (size (dom (files fsys)) + size (dirs fsys)))
                fsys base ext 1) as [target Hr].
    { intros k Hk. lia. }
    { pose proof (size_taken fsys). lia. }
    pose proof Hr as Hspec.
    apply legacy_find_free_spec in Hspec as (Hfree & k & Hk & Ht & Hall).
    exists k. fold (PhotoDownloader.numbered base ext k). rewrite <- Ht, Hr.
    repeat split; try assumption.
    + assert (k - 1 <= size (taken fsys)); [| lia].
      apply (pigeonhole (PhotoDownloader.numbered base ext)).
      * apply legacy_numbered_inj.
      * intros j Hj. apply path_exists_taken, Hall. lia.
    + rewrite Htmp. eexists. split; [reflexivity |]. cbn [files].
      split; [apply lookup_insert_eq |].
      intros q f Hq. rewrite lookup_insert_ne; [assumption |].
      intros ->. apply path_exists_false in Hfree. congruence.
Qed.

Lemma C4_conflict_suffix_witness :
  temps fs_a_taken !! 0 = Some bytes2
  /\ path_exists fs_a_taken (Py.join "/out" "a.jpg") = true
  /\ (exists k,
        1 <= k <= S (size (taken fs_a_taken))
        /\ resolve_conflict (enough_fuel fs_a_taken) fs_a_taken "/out" "a.jpg" 1
                            "a.jpg" (Py.join "/out" "a.jpg")
           = Some (fst (Py.splitext "a.jpg") ++ "_" ++ Py.zpad 3 k
                   ++ snd (Py.splitext "a.jpg"),
                   Py.join "/out" (fst (Py.splitext "a.jpg") ++ "_" ++ Py.zpad 3 k
                                   ++ snd (Py.splitext "a.jpg")))).
Proof.
  assert (H1 : temps fs_a_taken !! 0 = Some bytes2) by reflexivity.
  assert (H2 : path_exists fs_a_taken (Py.join "/out" "a.jpg") = true)
    by (vm_compute; reflexivity).
  split; [exact H1 |]. split; [exact H2 |].
  destruct (C4_conflict_suffix fs_a_taken 0 bytes2 H1) as [Hnew _].
  destruct (Hnew "/out" "a.jpg" H2) as (k & Hk & Hr & _).
  exists k. split; [exact Hk | exact Hr].
Defined.

(** C4 fails as stated on [PhotoDownloader._process_single_photo]: with
    [/out/a.jpg] taken, the file goes to [/out/a_1.jpg], where
    [process_photo] goes to [/out/a_001.jpg]. *)
Lemma C4_counterexample :
  (PhotoDownloader.final_path fs_a_taken "/out/a.jpg",
   option_map fst (PhotoDownloader.move_to_final true 0 "/out/a.jpg" fs_a_taken),
   resolve_conflict (enough_fuel fs_a_taken) fs_a_taken "/out" "a.jpg" 1 "a.jpg"
                    (Py.join "/out" "a.jpg"))
  = (Some "/out/a_1.jpg", Some "/out/a_1.jpg", Some ("a_001.jpg", "/out/a_001.jpg")).
Proof. vm_compute. reflexivity. Qed.

